(** * Orientation Panel 2D: a shallow embedding of the orientation pipeline

    The development follows [OrientationPanel2D.tsx] and [Settings.tsx]:
    - ECMAScript values and numbers (binary64, as [spec_float]);
    - the quaternion extractor and the Euler converter;
    - the panel state, its reducers and the settings projection;
    - the component's update and render cycle as a transition system. *)

From Stdlib Require Import ZArith String List Bool.
From Stdlib Require Import Floats.
From stdpp Require Import base option list strings gmap.

Set Warnings "-register-all".

Local Open Scope string_scope.
Local Open Scope list_scope.

(** ** ECMAScript numbers

    A JavaScript number is an IEEE 754 binary64 value.  [spec_float] at
    precision 53 and maximal exponent 1024 is the Standard Library's
    specification of that format, with inductive values that proofs can
    take apart. *)

Module Num.
Definition t : Type := spec_float.

Definition add : t -> t -> t := SFadd prec emax.
Definition sub : t -> t -> t := SFsub prec emax.
Definition mul : t -> t -> t := SFmul prec emax.
Definition div : t -> t -> t := SFdiv prec emax.
(** [a >= b] on numbers: false as soon as one side is NaN. *)
Definition ge (a b : t) : bool := SFleb b a.

Definition NaN : t := S754_nan.
Definition zero : t := Eval vm_compute in Prim2SF 0%float.
Definition one : t := Eval vm_compute in Prim2SF 1%float.
Definition minus_one : t := Eval vm_compute in Prim2SF (-1)%float.
Definition two : t := Eval vm_compute in Prim2SF 2%float.
Definition ninety : t := Eval vm_compute in Prim2SF 90%float.
Definition c180 : t := Eval vm_compute in Prim2SF 180%float.

Definition is_NaN (a : t) : bool :=
  match a with S754_nan => true | _ => false end.
Definition is_zero (a : t) : bool :=
  match a with S754_zero _ => true | _ => false end.
End Num.

Declare Scope num_scope.
Delimit Scope num_scope with num.
Bind Scope num_scope with Num.t.
Infix "+" := Num.add : num_scope.
Infix "-" := Num.sub : num_scope.
Infix "*" := Num.mul : num_scope.
Infix "/" := Num.div : num_scope.
Infix ">=" := Num.ge : num_scope.

(** [Math.PI], the binary64 value 0x1.921fb54442d18p+1. *)
Definition Math_PI : Num.t :=
  Eval vm_compute in Prim2SF 0x1.921fb54442d18p+1%float.

Definition Math_abs (x : Num.t) : Num.t := SFabs x.

(** [Math.sign]: NaN and the two zeros are returned as they are, every
    other number gives 1 or -1 by its sign bit. *)
Definition Math_sign (x : Num.t) : Num.t :=
  match x with
  | S754_nan => S754_nan
  | S754_zero s => S754_zero s
  | S754_infinity s | S754_finite s _ _ =>
      if s then Num.minus_one else Num.one
  end.

(** ** ECMAScript values

    The values a deserialized message is made of.  Functions, symbols and
    BigInt are not part of the model. *)

Inductive JsVal : Type :=
| JUndefined
| JNull
| JBool (b : bool)
| JNum (n : Num.t)
| JStr (s : string)
| JArr (elems : list JsVal)
| JObj (fields : list (string * JsVal)).

(** The property names this program reads from message data.  None of
    them is an own or inherited property of a string, a number, a
    boolean or an array, so reading one from such a value gives
    [undefined]. *)
Inductive Key : Type :=
| k_x | k_y | k_z | k_w
| k_orientation | k_pose | k_rotation | k_transform.

Definition key_name (k : Key) : string :=
  match k with
  | k_x => "x" | k_y => "y" | k_z => "z" | k_w => "w"
  | k_orientation => "orientation" | k_pose => "pose"
  | k_rotation => "rotation" | k_transform => "transform"
  end.

Fixpoint assoc {V : Type} (k : string) (l : list (string * V)) : option V :=
  match l with
  | [] => None
  | (k', v) :: l' => if String.eqb k k' then Some v else assoc k l'
  end.

Definition typeof (v : JsVal) : string :=
  match v with
  | JUndefined => "undefined"
  | JNull => "object"
  | JBool _ => "boolean"
  | JNum _ => "number"
  | JStr _ => "string"
  | JArr _ | JObj _ => "object"
  end.

(** ToBoolean. *)
Definition truthy (v : JsVal) : bool :=
  match v with
  | JUndefined | JNull => false
  | JBool b => b
  | JNum n => negb (Num.is_NaN n || Num.is_zero n)
  | JStr s => negb (String.eqb s "")
  | JArr _ | JObj _ => true
  end.

(** [v !== undefined]. *)
Definition is_defined (v : JsVal) : bool :=
  match v with JUndefined => false | _ => true end.

(** [v === undefined || v === null], the test behind [?.] and [??]. *)
Definition nullish (v : JsVal) : bool :=
  match v with JUndefined | JNull => true | _ => false end.

(** ** Effects: exceptions and the console

    A computation ends with a value or a thrown error, and leaves the
    diagnostics it wrote to the console. *)

Inductive JsError : Type :=
| TypeError (msg : string).

Inductive Outcome (A : Type) : Type :=
| Ok (a : A)
| Throw (e : JsError).
Arguments Ok {A} a.
Arguments Throw {A} e.

Inductive Diagnostic : Type :=
| Warn (text : string) (arg : JsVal).

Definition Eff (A : Type) : Type := (Outcome A * list Diagnostic)%type.

Definition ret {A} (a : A) : Eff A := (Ok a, []).
Definition throw {A} (e : JsError) : Eff A := (Throw e, []).
Definition bind {A B} (m : Eff A) (f : A -> Eff B) : Eff B :=
  match m with
  | (Ok a, out) => let (r, out') := f a in (r, out ++ out')
  | (Throw e, out) => (Throw e, out)
  end.
Definition console_warn (text : string) (arg : JsVal) : Eff unit :=
  (Ok tt, [Warn text arg]).

Notation "'let*' x ':=' m 'in' k" := (bind m (fun x => k))
  (at level 10, x name, m at level 100, k at level 200, only parsing).

(** [returns m a]: [m] ends normally with [a]. *)
Definition returns {A} (m : Eff A) (a : A) : Prop := fst m = Ok a.
(** [raises m]: [m] ends by throwing. *)
Definition raises {A} (m : Eff A) : Prop := exists e, fst m = Throw e.

(** [v.k]: a TypeError on [undefined] and [null]. *)
Definition get_prop (v : JsVal) (k : Key) : Eff JsVal :=
  match v with
  | JUndefined | JNull =>
      throw (TypeError ("Cannot read properties of " ++
                        (if is_defined v then "null" else "undefined") ++
                        " (reading '" ++ key_name k ++ "')"))
  | JObj fields =>
      ret (match assoc (key_name k) fields with
           | Some x => x
           | None => JUndefined
           end)
  | JBool _ | JNum _ | JStr _ | JArr _ => ret JUndefined
  end.

(** [v?.k]. *)
Definition get_prop_opt (v : JsVal) (k : Key) : Eff JsVal :=
  if nullish v then ret JUndefined else get_prop v k.

(** ** The orientation of one source, in degrees *)

Record Orientation : Type := mkOrientation {
  roll : Num.t;
  pitch : Num.t;
  yaw : Num.t
}.

Section Pipeline.

(** [Math.atan2] and [Math.asin] are implementation-approximated in
    ECMAScript; the conversion of strings and of arrays to numbers is
    not used on numeric data.  All four are parameters of the model. *)
Variable Math_atan2 : Num.t -> Num.t -> Num.t.
Variable Math_asin : Num.t -> Num.t.
Variable StringToNumber : string -> Num.t.
Variable ArrayToNumber : list JsVal -> Num.t.

(** ToNumber, applied by [*], [+] and [-] to each operand. *)
Definition ToNumber (v : JsVal) : Num.t :=
  match v with
  | JUndefined => Num.NaN
  | JNull => Num.zero
  | JBool b => if b then Num.one else Num.zero
  | JNum n => n
  | JStr s => StringToNumber s
  | JArr elems => ArrayToNumber elems
  | JObj _ => Num.NaN
  end.

(** *** quaternionToEuler *)

Definition to_degrees (rad : Num.t) : Num.t :=
  (rad * (Num.c180 / Math_PI))%num.

Definition quaternionToEuler (quaternion : JsVal) : Eff Orientation :=
  let* invalid := (if negb (truthy quaternion) then ret true
              else let* w := get_prop quaternion k_w in
                   ret (negb (String.eqb (typeof w) "number"))) in
  if invalid : bool then
    let* _ := console_warn "Invalid quaternion:" quaternion in
    ret {| roll := Num.zero; pitch := Num.zero; yaw := Num.zero |}
  else
    let* w := get_prop quaternion k_w in
    let* x := get_prop quaternion k_x in
    let* y := get_prop quaternion k_y in
    let* z := get_prop quaternion k_z in
    let q0 := ToNumber w in
    let q1 := ToNumber x in
    let q2 := ToNumber y in
    let q3 := ToNumber z in
    (* Roll (x-axis rotation) *)
    let sinr_cosp := (Num.two * (q0 * q1 + q2 * q3))%num in
    let cosr_cosp := (Num.one - Num.two * (q1 * q1 + q2 * q2))%num in
    let roll := Math_atan2 sinr_cosp cosr_cosp in
    (* Pitch (y-axis rotation) *)
    let sinp := (Num.two * (q0 * q2 - q3 * q1))%num in
    let pitch :=
      if (Math_abs sinp >= Num.one)%num
      then (Math_sign sinp * Math_PI / Num.two)%num
      else Math_asin sinp in
    (* Yaw (z-axis rotation) *)
    let siny_cosp := (Num.two * (q0 * q3 + q1 * q2))%num in
    let cosy_cosp := (Num.one - Num.two * (q2 * q2 + q3 * q3))%num in
    let yaw := Math_atan2 siny_cosp cosy_cosp in
    ret {| roll := to_degrees roll;
           pitch := to_degrees pitch;
           yaw := to_degrees yaw |}.

(** *** extractQuaternion

    The result is the quaternion-bearing value, or [undefined]. *)

Definition extractQuaternion (message : JsVal) : Eff JsVal :=
  if negb (truthy message) || negb (String.eqb (typeof message) "object")
  then ret JUndefined
  else
    let msg := message in
    (* Direct quaternion.  [msg] is an object here: none of the four
       reads can throw, so the short-circuit of [&&] is not observable. *)
    let* x := get_prop msg k_x in
    let* y := get_prop msg k_y in
    let* z := get_prop msg k_z in
    let* w := get_prop msg k_w in
    if is_defined x && is_defined y && is_defined z && is_defined w
    then ret msg
    else
    (* IMU message *)
    let* o := get_prop msg k_orientation in
    if truthy o then get_prop msg k_orientation
    else
    (* Pose message *)
    let* po := (let* p := get_prop msg k_pose in get_prop_opt p k_orientation) in
    if truthy po
    then let* p := get_prop msg k_pose in get_prop p k_orientation
    else
    (* Pose with covariance (like in Odometry) *)
    let* ppo := (let* p := get_prop msg k_pose in
            let* pp := get_prop_opt p k_pose in
            get_prop_opt pp k_orientation) in
    if truthy ppo
    then let* p := get_prop msg k_pose in
         let* pp := get_prop p k_pose in
         get_prop pp k_orientation
    else
    (* Transform message *)
    let* r := get_prop msg k_rotation in
    if truthy r then get_prop msg k_rotation
    else
    (* TransformStamped message *)
    let* tr := (let* t := get_prop msg k_transform in get_prop_opt t k_rotation) in
    if truthy tr
    then let* t := get_prop msg k_transform in get_prop t k_rotation
    else ret JUndefined.

End Pipeline.


(** ** Insertion-ordered maps

    A JavaScript [Map] (and the key/value list of a settings node) keeps
    its entries in insertion order: [set] on a present key replaces the
    value in place, on a new key it appends. *)

Module OMap.
Definition t (V : Type) : Type := list (string * V).

Definition empty {V} : t V := [].

Definition get {V} (k : string) (m : t V) : option V := assoc k m.

Definition has {V} (k : string) (m : t V) : bool :=
  match get k m with Some _ => true | None => false end.

Fixpoint set {V} (k : string) (v : V) (m : t V) : t V :=
  match m with
  | [] => [(k, v)]
  | (k', v') :: m' =>
      if String.eqb k k' then (k, v) :: m' else (k', v') :: set k v m'
  end.

Fixpoint delete {V} (k : string) (m : t V) : t V :=
  match m with
  | [] => []
  | (k', v') :: m' =>
      if String.eqb k k' then delete k m' else (k', v') :: delete k m'
  end.

Definition keys {V} (m : t V) : list string := map fst m.
End OMap.

(** [forEach] with a callback that may throw: the entries are visited in
    order and the first exception ends the loop. *)
Fixpoint forEachM {A S : Type} (f : S -> A -> Eff S) (l : list A) (s : S)
  : Eff S :=
  match l with
  | [] => ret s
  | a :: l' => let* s' := f s a in forEachM f l' s'
  end.

(** ** Panel state (Settings.tsx)

    The objects are those of type [PanelState], as they exist at run
    time: a property restored from a persisted configuration can be
    missing, so every field is optional ([None] is [undefined]).  The
    [topics] dictionary holds the own properties of a plain object; a
    read by key of a name that is not among them goes on to
    [Object.prototype]. *)

Record TopicConfig : Type := mkTopicConfig {
  enabled : option bool;
  showRoll : option bool;
  showPitch : option bool;
  showYaw : option bool
}.

Record DisplaySettings : Type := mkDisplaySettings {
  rollEnabled : option bool;
  pitchEnabled : option bool;
  yawEnabled : option bool
}.

Record PanelState : Type := mkPanelState {
  topics : option (gmap string TopicConfig);
  displaySettings : option DisplaySettings
}.

Inductive DisplayComponent : Type :=
| RollEnabled | PitchEnabled | YawEnabled.

Inductive TopicComponent : Type :=
| ShowRoll | ShowPitch | ShowYaw.

(** ToBoolean of an optional flag. *)
Definition flag_truthy (f : option bool) : bool := default false f.

(** [o?.f], for an object that may be [undefined]. *)
Definition opt_field {A B} (o : option A) (f : A -> option B) : option B :=
  match o with Some a => f a | None => None end.

(** [{...o}] for a dictionary that may be [undefined]. *)
Definition spread_dict {V} (o : option (gmap string V)) : gmap string V :=
  default ∅ o.

Definition get_flag (c : TopicComponent) (cfg : TopicConfig) : option bool :=
  match c with
  | ShowRoll => showRoll cfg
  | ShowPitch => showPitch cfg
  | ShowYaw => showYaw cfg
  end.

(** [{...cfg, [component]: v}]. *)
Definition set_flag (c : TopicComponent) (v : bool) (cfg : TopicConfig)
  : TopicConfig :=
  match c with
  | ShowRoll => {| enabled := enabled cfg; showRoll := Some v;
                   showPitch := showPitch cfg; showYaw := showYaw cfg |}
  | ShowPitch => {| enabled := enabled cfg; showRoll := showRoll cfg;
                    showPitch := Some v; showYaw := showYaw cfg |}
  | ShowYaw => {| enabled := enabled cfg; showRoll := showRoll cfg;
                  showPitch := showPitch cfg; showYaw := Some v |}
  end.

Definition get_display (c : DisplayComponent) (d : DisplaySettings)
  : option bool :=
  match c with
  | RollEnabled => rollEnabled d
  | PitchEnabled => pitchEnabled d
  | YawEnabled => yawEnabled d
  end.

(** [{...d, [component]: v}], where [d] may be [undefined]. *)
Definition set_display (c : DisplayComponent) (v : bool)
  (d : option DisplaySettings) : DisplaySettings :=
  let r := opt_field d rollEnabled in
  let p := opt_field d pitchEnabled in
  let y := opt_field d yawEnabled in
  match c with
  | RollEnabled =>
      {| rollEnabled := Some v; pitchEnabled := p; yawEnabled := y |}
  | PitchEnabled =>
      {| rollEnabled := r; pitchEnabled := Some v; yawEnabled := y |}
  | YawEnabled =>
      {| rollEnabled := r; pitchEnabled := p; yawEnabled := Some v |}
  end.

(** The property names of [Object.prototype] (ECMAScript, with its
    Annex B): eleven functions and the accessor [__proto__]. *)
Definition Object_prototype_keys : list string :=
  ["constructor"; "hasOwnProperty"; "isPrototypeOf"; "propertyIsEnumerable";
   "toLocaleString"; "toString"; "valueOf"; "__proto__";
   "__defineGetter__"; "__defineSetter__"; "__lookupGetter__";
   "__lookupSetter__"].

Definition inherited (key : string) : bool :=
  existsb (String.eqb key) Object_prototype_keys.

(** What a read by key finds at an inherited name, seen as a topic
    config: a function (or [Object.prototype] itself for [__proto__]),
    which is truthy, has none of the four flags and spreads to no
    property. *)
Definition inherited_member : TopicConfig :=
  {| enabled := None; showRoll := None; showPitch := None; showYaw := None |}.

(** [topics[key]] on a plain object with the own properties [ts]: the own
    property, else the member inherited from [Object.prototype], else
    [undefined]. *)
Definition own_or_inherited (ts : gmap string TopicConfig) (key : string)
  : option TopicConfig :=
  match ts !! key with
  | Some cfg => Some cfg
  | None => if inherited key then Some inherited_member else None
  end.

(** [state.topics[topicName]] as a value, where the code tests or spreads
    it: throws when [state.topics] is undefined. *)
Definition topic_member (state : PanelState) (topicName : string)
  : Eff (option TopicConfig) :=
  match topics state with
  | None =>
      throw (TypeError ("Cannot read properties of undefined (reading '"
                        ++ topicName ++ "')"))
  | Some ts => ret (own_or_inherited ts topicName)
  end.

(** [state.topics[topicName]] where the code only reads a flag of it
    ([c?.flag], or [!c || !c.flag]): an inherited member has no such
    flag, so that the flag read is [undefined] for it as for a missing
    key, and the own property decides.  Throws when [state.topics] is
    undefined. *)
Definition topic_config (state : PanelState) (topicName : string)
  : Eff (option TopicConfig) :=
  match topics state with
  | None =>
      throw (TypeError ("Cannot read properties of undefined (reading '"
                        ++ topicName ++ "')"))
  | Some ts => ret (ts !! topicName)
  end.

Definition getInitialState : PanelState :=
  {| topics := Some ∅;
     displaySettings := Some {| rollEnabled := Some true;
                                pitchEnabled := Some true;
                                yawEnabled := Some true |} |}.

Definition updateTopicStatus (state : PanelState) (topicName : string)
  (enabled' : bool) : Eff PanelState :=
  let* existingTopic := topic_config state topicName in
  ret {| topics :=
           Some (<[topicName :=
                    {| enabled := Some enabled';
                       showRoll :=
                         Some (default true (opt_field existingTopic showRoll));
                       showPitch :=
                         Some (default true (opt_field existingTopic showPitch));
                       showYaw :=
                         Some (default true (opt_field existingTopic showYaw))
                    |}]> (spread_dict (topics state)));
         displaySettings := displaySettings state |}.

Definition updateDisplaySetting (state : PanelState)
  (component : DisplayComponent) (enabled' : bool) : PanelState :=
  {| topics := topics state;
     displaySettings :=
       Some (set_display component enabled' (displaySettings state)) |}.

Definition updateTopicComponentStatus (state : PanelState)
  (topicName : string) (component : TopicComponent) (enabled' : bool)
  : Eff PanelState :=
  (* [!state.topics[topicName]]: an inherited member passes the guard *)
  let* existing := topic_member state topicName in
  match existing with
  | None => ret state
  | Some cfg =>
      (* the spread reads [state.topics[topicName]] again: same object *)
      ret {| topics :=
               Some (<[topicName := set_flag component enabled' cfg]>
                       (spread_dict (topics state)));
             displaySettings := displaySettings state |}
  end.

(** [Object.entries] lists the dictionary's entries; the model takes them
    in the order of [map_to_list]. *)
Definition getEnabledTopics (state : PanelState) : Eff (list string) :=
  match topics state with
  | None => throw (TypeError "Cannot convert undefined or null to object")
  | Some ts =>
      ret (map fst
             (List.filter (fun e => flag_truthy (enabled (snd e)))
                          (map_to_list ts)))
  end.

(** ** Settings projection (Settings.tsx) *)

Record Topic : Type := mkTopic {
  name : string;
  schemaName : string
}.

Record SettingsField : Type := mkField {
  field_label : string;
  field_input : string;
  field_value : option bool
}.

Inductive SettingsTreeNode : Type :=
  mkNode {
    node_label : string;
    node_defaultExpansionState : option string;
    node_visible : option bool;
    node_fields : option (OMap.t SettingsField);
    node_children : option (OMap.t SettingsTreeNode)
  }.

Definition SettingsTreeNodes : Type := OMap.t SettingsTreeNode.

(** [state.displaySettings.f]: throws when [state.displaySettings] is
    undefined. *)
Definition display_flag (state : PanelState) (c : DisplayComponent)
  : Eff (option bool) :=
  match displaySettings state with
  | None =>
      throw (TypeError
               ("Cannot read properties of undefined (reading '" ++
                match c with
                | RollEnabled => "rollEnabled"
                | PitchEnabled => "pitchEnabled"
                | YawEnabled => "yawEnabled"
                end ++ "')"))
  | Some d => ret (get_display c d)
  end.

(** The callback given to lodash's [transform]: it stores the node of one
    topic in the accumulator, a plain object that starts empty.  The
    assignment [result[topic.name] = node] adds or replaces an own
    property, except for the name [__proto__]: that assignment reaches the
    accessor of [Object.prototype], which replaces the prototype of the
    accumulator and adds no property.  [result] holds the own properties,
    which are the nodes of the tree. *)
Definition topic_node (state : PanelState) (result : SettingsTreeNodes)
  (topic : Topic) : Eff SettingsTreeNodes :=
  let* cfg := topic_config state (name topic) in
  let isEnabled := default false (opt_field cfg enabled) in
  let* children :=
    (if isEnabled then
       let* c1 := topic_config state (name topic) in
       let* c2 := topic_config state (name topic) in
       let* c3 := topic_config state (name topic) in
       ret (Some
         [("topicSettings",
           {| node_label := "Topic Settings";
              node_defaultExpansionState := None;
              node_visible := None;
              node_fields := Some
                [("showRoll",
                  {| field_label := "Show Roll"; field_input := "boolean";
                     field_value :=
                       Some (default true (opt_field c1 showRoll)) |});
                 ("showPitch",
                  {| field_label := "Show Pitch"; field_input := "boolean";
                     field_value :=
                       Some (default true (opt_field c2 showPitch)) |});
                 ("showYaw",
                  {| field_label := "Show Yaw"; field_input := "boolean";
                     field_value :=
                       Some (default true (opt_field c3 showYaw)) |})];
              node_children := None |})])
     else ret None) in
  let node :=
    {| node_label := name topic;
       node_defaultExpansionState := Some "collapsed";
       node_visible := Some isEnabled;
       node_fields := None;
       node_children := children |} in
  if String.eqb (name topic) "__proto__" then ret result
  else ret (OMap.set (name topic) node result).

Definition buildSettingsTree (state : PanelState)
  (orientationTopics : list Topic) : Eff SettingsTreeNodes :=
  (* Transform topics into settings tree nodes *)
  let* topics' := forEachM (topic_node state) orientationTopics OMap.empty in
  let* r := display_flag state RollEnabled in
  let* p := display_flag state PitchEnabled in
  let* y := display_flag state YawEnabled in
  ret [("general",
        {| node_label := "Display Elements";
           node_defaultExpansionState := None;
           node_visible := None;
           node_fields := Some
             [("rollEnabled",
               {| field_label := "Roll Display"; field_input := "boolean";
                  field_value := r |});
              ("pitchEnabled",
               {| field_label := "Pitch Display"; field_input := "boolean";
                  field_value := p |});
              ("yawEnabled",
               {| field_label := "Yaw Display"; field_input := "boolean";
                  field_value := y |})];
           node_children := None |});
       ("topics",
        {| node_label := "Topics";
           node_defaultExpansionState := None;
           node_visible := None;
           node_fields := None;
           node_children := Some topics' |})].

(** ** The panel component (OrientationPanel2D.tsx) *)

Definition MAX_TOPICS : nat := 9.

Definition ORIENTATION_TYPES : list string :=
  ["sensor_msgs/Imu"; "nav_msgs/Odometry"].

Module CONFIG.
Definition messageColors : list string :=
  ["var(--color-message-1-transparent, rgba(255, 0, 0, 0.75))";
   "var(--color-message-2-transparent, rgba(0, 255, 0, 0.75))";
   "var(--color-message-3-transparent, rgba(0, 0, 255, 0.75))";
   "var(--color-message-4-transparent, rgba(255, 255, 0, 0.75))";
   "var(--color-message-5-transparent, rgba(0, 255, 255, 0.75))";
   "var(--color-message-6-transparent, rgba(255, 0, 255, 0.75))";
   "var(--color-message-7-transparent, rgba(255, 128, 0, 0.75))";
   "var(--color-message-8-transparent, rgba(128, 0, 255, 0.75))"].

Definition colorClasses : list string :=
  ["message-1"; "message-2"; "message-3"; "message-4";
   "message-5"; "message-6"; "message-7"; "message-8"].
End CONFIG.

Record MessageEvent : Type := mkMessageEvent {
  topic : string;
  message : JsVal
}.

(** The component's state: the four [useState] cells the pipeline reads
    and writes, and in [subscribed] the argument of the last
    [context.subscribe] call of [handleTopicEnabledChange] (the effect
    that repeats the subscription after each state change is left out,
    as are the refs, the resize observer and the style sheet). *)
Record Panel : Type := mkPanel {
  state : PanelState;
  messages : OMap.t MessageEvent;
  orientations : OMap.t Orientation;
  catalog : option (list Topic);
  subscribed : list string
}.

(** The initializer of the [state] cell: [savedState] is
    [context.initialState], [None] when there is none; a [None] field of
    it is a key the persisted object does not have. *)
Definition initialPanelState (savedState : option PanelState) : PanelState :=
  {| topics :=
       Some (spread_dict (opt_field savedState topics)
             ∪ spread_dict (topics getInitialState));
     displaySettings :=
       match opt_field savedState displaySettings with
       | Some d => Some d
       | None => displaySettings getInitialState
       end |}.

Definition initialPanel (savedState : option PanelState) : Panel :=
  {| state := initialPanelState savedState;
     messages := OMap.empty;
     orientations := OMap.empty;
     catalog := None;
     subscribed := [] |}.

(** [orientationTopics]: the catalog entries with an orientation schema. *)
Definition orientationTopics (p : Panel) : list Topic :=
  List.filter
    (fun t => existsb (String.eqb (schemaName t)) ORIENTATION_TYPES)
    (default [] (catalog p)).

(** *** The indicators drawn by the display effect *)

Record Indicator : Type := mkIndicator {
  className : string;
  backgroundColor : option string;
  rotate_deg : Num.t
}.

(** The loop state of the display effect.  [indexed] records, for each
    source that went through the loop body, the index it was given. *)
Record Displays : Type := mkDisplays {
  topicIndex : nat;
  rollDisplay : list Indicator;
  pitchDisplay : list Indicator;
  yawDisplay : list Indicator;
  indexed : list (string * nat)
}.

(** A template literal prints a missing value as the text "undefined". *)
Definition template (s : option string) : string :=
  match s with Some s => s | None => "undefined" end.

Definition draw_topic (state : PanelState)
  (rollEnabled' pitchEnabled' yawEnabled' : bool)
  (d : Displays) (entry : string * Orientation) : Eff Displays :=
  let (topicName, orientation) := entry in
  if (MAX_TOPICS <=? topicIndex d)%nat then ret d
  else
    let* topicConfig := topic_config state topicName in
    match topicConfig with
    | None => ret d
    | Some topicConfig =>
        if negb (flag_truthy (enabled topicConfig)) then ret d
        else
          let colorValue := CONFIG.messageColors !! topicIndex d in
          let colorClass := CONFIG.colorClasses !! topicIndex d in
          let indicator prefix angle :=
            {| className := prefix ++ template colorClass;
               backgroundColor := colorValue;
               rotate_deg := angle |} in
          ret {| topicIndex := S (topicIndex d);
                 rollDisplay :=
                   if rollEnabled' && flag_truthy (showRoll topicConfig)
                   then rollDisplay d ++
                        [indicator "topic-indicator " (roll orientation)]
                   else rollDisplay d;
                 pitchDisplay :=
                   if pitchEnabled' && flag_truthy (showPitch topicConfig)
                   then pitchDisplay d ++
                        [indicator "topic-indicator " (pitch orientation)]
                   else pitchDisplay d;
                 yawDisplay :=
                   if yawEnabled' && flag_truthy (showYaw topicConfig)
                   then yawDisplay d ++
                        [indicator "yaw-indicator " (yaw orientation)]
                   else yawDisplay d;
                 indexed := indexed d ++ [(topicName, topicIndex d)] |}
    end.

(** The effect "Update orientation displays".  A display element exists
    (its ref is attached) exactly when its global flag is truthy. *)
Definition updateDisplays (p : Panel) : Eff Displays :=
  let none := mkDisplays 0 [] [] [] [] in
  let* r := display_flag (state p) RollEnabled in
  let* pi := display_flag (state p) PitchEnabled in
  let* y := display_flag (state p) YawEnabled in
  let rollEnabled' := flag_truthy r in
  let pitchEnabled' := flag_truthy pi in
  let yawEnabled' := flag_truthy y in
  if negb rollEnabled' && negb pitchEnabled' && negb yawEnabled'
  then ret none
  else
    (* Clear existing indicators, then add indicators for each topic *)
    forEachM (draw_topic (state p) rollEnabled' pitchEnabled' yawEnabled')
             (orientations p) none.

(** *** Handlers and effects *)

Definition handleTopicEnabledChange (p : Panel) (topicName : string)
  (enabled' : bool) : Eff Panel :=
  let* newState := updateTopicStatus (state p) topicName enabled' in
  (* Update subscriptions *)
  let* enabledTopics := getEnabledTopics newState in
  (* If we're disabling a topic, remove it from messages *)
  if negb enabled' && OMap.has topicName (messages p) then
    let newMessages := OMap.delete topicName (messages p) in
    (* Also remove from orientations *)
    ret {| state := newState;
           messages := newMessages;
           orientations := OMap.delete topicName (orientations p);
           catalog := catalog p;
           subscribed := enabledTopics |}
  else
    ret {| state := newState;
           messages := messages p;
           orientations := orientations p;
           catalog := catalog p;
           subscribed := enabledTopics |}.

(** [context.onRender]: keeps the messages of enabled topics only. *)
Definition onRender (p : Panel) (currentFrame : option (list MessageEvent))
  (topics' : option (list Topic)) : Eff Panel :=
  match currentFrame with
  | Some ((_ :: _) as frame) =>
      let* newMessages :=
        forEachM
          (fun newMessages msg =>
             let* cfg := topic_config (state p) (topic msg) in
             if flag_truthy (opt_field cfg enabled)
             then ret (OMap.set (topic msg) msg newMessages)
             else ret newMessages)
          frame (messages p) in
      ret {| state := state p;
             messages := newMessages;
             orientations := orientations p;
             catalog := topics';
             subscribed := subscribed p |}
  | _ =>
      ret {| state := state p;
             messages := messages p;
             orientations := orientations p;
             catalog := topics';
             subscribed := subscribed p |}
  end.

Section Component.

Variable Math_atan2 : Num.t -> Num.t -> Num.t.
Variable Math_asin : Num.t -> Num.t.
Variable StringToNumber : string -> Num.t.
Variable ArrayToNumber : list JsVal -> Num.t.

(** The effect "Process incoming messages and update orientations": each
    [setOrientations] call is applied to the result of the one before. *)
Definition process_message (prev : OMap.t Orientation)
  (entry : string * MessageEvent) : Eff (OMap.t Orientation) :=
  let (topic', message') := entry in
  let* quaternion := extractQuaternion (message message') in
  if negb (truthy quaternion) then ret prev
  else
    let* euler := quaternionToEuler Math_atan2 Math_asin StringToNumber
                    ArrayToNumber quaternion in
    ret (OMap.set topic' euler prev).

Definition processMessages (p : Panel) : Eff Panel :=
  let* orientations' :=
    forEachM process_message (messages p) (orientations p) in
  ret {| state := state p;
         messages := messages p;
         orientations := orientations';
         catalog := catalog p;
         subscribed := subscribed p |}.

(** *** The update cycle as a transition system

    One step is one call of a handler by the host, followed by the
    effects that React runs because a cell they depend on was replaced
    (a new [Map] for [messages] re-runs [processMessages]). *)

Inductive Event : Type :=
| Deliver (currentFrame : option (list MessageEvent))
          (topics' : option (list Topic))
| SetTopicEnabled (topicName : string) (enabled' : bool)
| SetDisplaySetting (component : DisplayComponent) (enabled' : bool)
| SetTopicComponent (topicName : string) (component : TopicComponent)
                    (enabled' : bool).

Definition with_state (p : Panel) (s : PanelState) : Panel :=
  {| state := s;
     messages := messages p;
     orientations := orientations p;
     catalog := catalog p;
     subscribed := subscribed p |}.

Definition step (p : Panel) (ev : Event) : Eff Panel :=
  match ev with
  | Deliver currentFrame topics' =>
      let* p' := onRender p currentFrame topics' in
      match currentFrame with
      | Some (_ :: _) => processMessages p'
      | _ => ret p'
      end
  | SetTopicEnabled topicName enabled' =>
      let* p' := handleTopicEnabledChange p topicName enabled' in
      if negb enabled' && OMap.has topicName (messages p)
      then processMessages p'
      else ret p'
  | SetDisplaySetting component enabled' =>
      ret (with_state p (updateDisplaySetting (state p) component enabled'))
  | SetTopicComponent topicName component enabled' =>
      let* s := updateTopicComponentStatus (state p) topicName component
                  enabled' in
      ret (with_state p s)
  end.

(** The states the panel can be in: after initialization from any
    persisted configuration, and after any step that did not throw. *)
Inductive reachable : Panel -> Prop :=
| reachable_init (savedState : option PanelState) :
    reachable (initialPanel savedState)
| reachable_step (p p' : Panel) (ev : Event) :
    reachable p -> returns (step p ev) p' -> reachable p'.

End Component.

(** ** Reading the code as a priority list

    [prop v k] is the value of [v?.k].  A shape is a test and the value it
    selects; [first_match] runs a list of shapes in order. *)

Definition prop (v : JsVal) (k : Key) : JsVal :=
  match v with
  | JObj fields => default JUndefined (assoc (key_name k) fields)
  | _ => JUndefined
  end.

Definition is_number (v : JsVal) : bool :=
  match v with JNum _ => true | _ => false end.

Definition is_object (v : JsVal) : bool :=
  match v with JObj _ | JArr _ => true | _ => false end.

Record Shape : Type := mkShape {
  shape_matches : JsVal -> bool;
  shape_value : JsVal -> JsVal
}.

(** The value at the end of a chain of optional reads. *)
Definition follow (path : list Key) (m : JsVal) : JsVal :=
  fold_left prop path m.

(** A nested field matches when it is truthy. *)
Definition field_shape (path : list Key) : Shape :=
  {| shape_matches := fun m => truthy (follow path m);
     shape_value := follow path |}.

(** The message itself matches when none of x, y, z, w is undefined. *)
Definition bare_shape : Shape :=
  {| shape_matches := fun m =>
       is_defined (prop m k_x) && is_defined (prop m k_y) &&
       is_defined (prop m k_z) && is_defined (prop m k_w);
     shape_value := fun m => m |}.

Definition nested_shapes : list Shape :=
  [field_shape [k_orientation];
   field_shape [k_pose; k_orientation];
   field_shape [k_pose; k_pose; k_orientation];
   field_shape [k_rotation];
   field_shape [k_transform; k_rotation]].

Definition shapes : list Shape := bare_shape :: nested_shapes.

(** The first shape as the specification words it: the message itself
    when its x, y, z and w are numbers. *)
Definition numeric_bare_shape : Shape :=
  {| shape_matches := fun m =>
       is_number (prop m k_x) && is_number (prop m k_y) &&
       is_number (prop m k_z) && is_number (prop m k_w);
     shape_value := fun m => m |}.

Definition spec_shapes : list Shape := numeric_bare_shape :: nested_shapes.

Definition first_match (l : list Shape) (m : JsVal) : JsVal :=
  match List.find (fun s => shape_matches s m) l with
  | Some s => shape_value s m
  | None => JUndefined
  end.

(** Extraction by a priority list: only objects are looked into. *)
Definition extract_by (l : list Shape) (message : JsVal) : JsVal :=
  if is_object message then first_match l message else JUndefined.

Definition identity_quaternion : JsVal :=
  JObj [("x", JNum Num.zero); ("y", JNum Num.zero);
        ("z", JNum Num.zero); ("w", JNum Num.one)].


(** ** The conversion formulas as the specification states them *)

Definition zero_orientation : Orientation :=
  {| roll := Num.zero; pitch := Num.zero; yaw := Num.zero |}.


(** Roll = atan2(2(wx+yz), 1-2(x²+y²)), yaw = atan2(2(wz+xy), 1-2(y²+z²)),
    both in degrees; with s = 2(wy-zx), pitch = sign(s)·90 when |s| >= 1
    and asin(s) in degrees otherwise. *)
Definition spec_toEuler (atan2 : Num.t -> Num.t -> Num.t)
  (asin : Num.t -> Num.t) (x y z w : Num.t) : Orientation :=
  let s := (Num.two * (w * y - z * x))%num in
  {| roll :=
       to_degrees (atan2 (Num.two * (w * x + y * z))%num
                         (Num.one - Num.two * (x * x + y * y))%num);
     pitch :=
       if (Math_abs s >= Num.one)%num
       then (Math_sign s * Num.ninety)%num
       else to_degrees (asin s);
     yaw :=
       to_degrees (atan2 (Num.two * (w * z + x * y))%num
                         (Num.one - Num.two * (y * y + z * z))%num) |}.


(** ** The settings node of one candidate source, in closed form *)

Definition topic_settings_node (cfg : option TopicConfig) : SettingsTreeNode :=
  {| node_label := "Topic Settings";
     node_defaultExpansionState := None;
     node_visible := None;
     node_fields := Some
       [("showRoll",
         {| field_label := "Show Roll"; field_input := "boolean";
            field_value := Some (default true (opt_field cfg showRoll)) |});
        ("showPitch",
         {| field_label := "Show Pitch"; field_input := "boolean";
            field_value := Some (default true (opt_field cfg showPitch)) |});
        ("showYaw",
         {| field_label := "Show Yaw"; field_input := "boolean";
            field_value := Some (default true (opt_field cfg showYaw)) |})];
     node_children := None |}.

Definition candidate_node (ts : gmap string TopicConfig) (topicName : string)
  : SettingsTreeNode :=
  let cfg := ts !! topicName in
  let isEnabled := default false (opt_field cfg enabled) in
  {| node_label := topicName;
     node_defaultExpansionState := Some "collapsed";
     node_visible := Some isEnabled;
     node_fields := None;
     node_children :=
       if isEnabled then Some [("topicSettings", topic_settings_node cfg)]
       else None |}.

(** ** Initialization as the specification states it

    The persisted partial state deep-merged over the defaults: a flag of
    [displaySettings] is the persisted one when there is one and the
    default otherwise; the defaults have no topic. *)

Definition deepMergedState (savedState : option PanelState) : PanelState :=
  let d := opt_field savedState displaySettings in
  let d0 := displaySettings getInitialState in
  {| topics := Some (spread_dict (opt_field savedState topics));
     displaySettings := Some
       {| rollEnabled :=
            match opt_field d rollEnabled with
            | Some b => Some b
            | None => opt_field d0 rollEnabled
            end;
          pitchEnabled :=
            match opt_field d pitchEnabled with
            | Some b => Some b
            | None => opt_field d0 pitchEnabled
            end;
          yawEnabled :=
            match opt_field d yawEnabled with
            | Some b => Some b
            | None => opt_field d0 yawEnabled
            end |} |}.

(** Every flag of a [displaySettings] object is defined. *)
Definition display_complete (d : DisplaySettings) : Prop :=
  is_Some (rollEnabled d) /\ is_Some (pitchEnabled d) /\
  is_Some (yawEnabled d).


(** One iteration of the loop over the candidates. *)
Definition add_candidate (ts : gmap string TopicConfig)
  (result : SettingsTreeNodes) (t : Topic) : SettingsTreeNodes :=
  if String.eqb (name t) "__proto__" then result
  else OMap.set (name t) (candidate_node ts (name t)) result.


(** ** Display indices in closed form *)

(** The source is enabled in the topics mapping. *)
Definition enabled_in (ts : gmap string TopicConfig) (topicName : string)
  : bool :=
  flag_truthy (opt_field (ts !! topicName) enabled).

(** Consecutive indices from [n] on. *)
Fixpoint number_from (n : nat) (ks : list string) : list (string * nat) :=
  match ks with
  | [] => []
  | k :: ks' => (k, n) :: number_from (S n) ks'
  end.

(** A panel in which every listed source is enabled with all its
    show-flags set and has a cached orientation, in the order of the
    list; the three displays are enabled. *)
Definition all_shown : TopicConfig :=
  {| enabled := Some true; showRoll := Some true;
     showPitch := Some true; showYaw := Some true |}.

Definition panel_showing (names : list string) : Panel :=
  {| state :=
       {| topics := Some (list_to_map (map (fun n => (n, all_shown)) names));
          displaySettings := displaySettings getInitialState |};
     messages := map (fun n => (n, mkMessageEvent n identity_quaternion)) names;
     orientations := map (fun n => (n, zero_orientation)) names;
     catalog := None;
     subscribed := names |}.

Definition ten_sources : list string :=
  ["/imu0"; "/imu1"; "/imu2"; "/imu3"; "/imu4";
   "/imu5"; "/imu6"; "/imu7"; "/imu8"; "/imu9"].


(** ** The update cycle in closed form *)

(** One iteration of the loop of [onRender]. *)
Definition keep_enabled (ts : gmap string TopicConfig)
  (newMessages : OMap.t MessageEvent) (msg : MessageEvent)
  : OMap.t MessageEvent :=
  if enabled_in ts (topic msg)
  then OMap.set (topic msg) msg newMessages
  else newMessages.

Section CycleClosedForm.

Variable Math_atan2 : Num.t -> Num.t -> Num.t.
Variable Math_asin : Num.t -> Num.t.
Variable StringToNumber : string -> Num.t.
Variable ArrayToNumber : list JsVal -> Num.t.

(** The orientation a message event yields, if any: none when no
    quaternion is found in it. *)
Definition converted (msg : MessageEvent) : option Orientation :=
  let q := extract_by shapes (message msg) in
  if truthy q then
    match fst (quaternionToEuler Math_atan2 Math_asin StringToNumber
                 ArrayToNumber q) with
    | Ok o => Some o
    | Throw _ => None
    end
  else None.

(** One iteration of the loop of [processMessages]. *)
Definition store_converted (prev : OMap.t Orientation)
  (entry : string * MessageEvent) : OMap.t Orientation :=
  match converted (snd entry) with
  | Some o => OMap.set (fst entry) o prev
  | None => prev
  end.

End CycleClosedForm.

(** The states in which the caches hold enabled sources only: the topics
    mapping is present, the message cache has one entry per key, every
    cached orientation has a cached message and every cached message
    belongs to an enabled source. *)
Definition caches_enabled_only (p : Panel) : Prop :=
  exists ts,
    topics (state p) = Some ts /\
    NoDup (OMap.keys (messages p)) /\
    (forall k, is_Some (OMap.get k (orientations p)) ->
               is_Some (OMap.get k (messages p))) /\
    (forall k, is_Some (OMap.get k (messages p)) -> enabled_in ts k = true).


(** ** A host for closed examples

    Stand-ins for the host's math library, exact at the arguments the
    examples use: atan2(y, x) as y/x and asin(s) as s, hence
    atan2(0, 1) = 0 and asin(0) = 0.  Strings and arrays convert to NaN. *)

Module Example.
Definition atan2 (y x : Num.t) : Num.t := (y / x)%num.
Definition asin (s : Num.t) : Num.t := s.
Definition string_to_number (_ : string) : Num.t := Num.NaN.
Definition array_to_number (_ : list JsVal) : Num.t := Num.NaN.

Definition run : Panel -> Event -> Eff Panel :=
  step atan2 asin string_to_number array_to_number.

(** The panel after a sequence of events, starting with no persisted
    configuration. *)
Definition after (events : list Event) : Panel :=
  fold_left
    (fun p ev => match fst (run p ev) with Ok p' => p' | Throw _ => p end)
    events (initialPanel None).

Definition imu_message : MessageEvent :=
  {| topic := "/imu";
     message := JObj [("orientation", identity_quaternion)] |}.

(** The source "/imu" is enabled, then one message of it is delivered. *)
Definition enable_imu : list Event := [SetTopicEnabled "/imu" true].
Definition enable_and_feed : list Event :=
  [SetTopicEnabled "/imu" true; Deliver (Some [imu_message]) None].

Definition imu_state : PanelState :=
  {| topics := Some {[ "/imu" := all_shown ]};
     displaySettings := displaySettings getInitialState |}.

(** Each listed source is enabled, then one frame brings a message of
    each. *)
Definition enable_and_feed_all (names : list string) : list Event :=
  map (fun n => SetTopicEnabled n true) names ++
  [Deliver (Some (map (fun n => mkMessageEvent n identity_quaternion) names))
           None].
End Example.


(** ** Settings actions (OrientationPanel2D.tsx)

    The editor reports a user edit as an action; only an "update" carries
    a path and a value. *)

Inductive SettingsTreeAction : Type :=
| ActionUpdate (path : list string) (value : JsVal)
| ActionPerformNode (id : string) (path : list string).

(** [path[i] === s]. *)
Definition path_is (path : list string) (i : nat) (s : string) : bool :=
  match path !! i with
  | Some x => String.eqb x s
  | None => false
  end.

(** [typeof v === "boolean"]. *)
Definition is_boolean (v : JsVal) : bool := String.eqb (typeof v) "boolean".

(** [actionHandler]: the handler call or state update an action leads
    to, if any.  A boolean [value] is passed on as it is. *)
Definition actionHandler (action : SettingsTreeAction) : option Event :=
  match action with
  | ActionPerformNode _ _ => None
  | ActionUpdate path value =>
      if path_is path 0 "general" then
        if path_is path 1 "rollEnabled" && is_boolean value
        then Some (SetDisplaySetting RollEnabled (truthy value))
        else if path_is path 1 "pitchEnabled" && is_boolean value
        then Some (SetDisplaySetting PitchEnabled (truthy value))
        else if path_is path 1 "yawEnabled" && is_boolean value
        then Some (SetDisplaySetting YawEnabled (truthy value))
        else None
      else if path_is path 0 "topics" then
        match path !! 1 with
        | Some topicName =>
            (* Handle visibility toggle or enabled checkbox *)
            if is_boolean value &&
               ((length path =? 2)%nat || path_is path 2 "visible" ||
                ((length path =? 3)%nat && path_is path 2 "enabled"))
            then Some (SetTopicEnabled topicName (truthy value))
            else if path_is path 2 "topicSettings" &&
                    (length path =? 4)%nat && is_boolean value
            then
              (* Handle individual component toggles *)
              if path_is path 3 "showRoll"
              then Some (SetTopicComponent topicName ShowRoll (truthy value))
              else if path_is path 3 "showPitch"
              then Some (SetTopicComponent topicName ShowPitch (truthy value))
              else if path_is path 3 "showYaw"
              then Some (SetTopicComponent topicName ShowYaw (truthy value))
              else None
            else None
        | None => None
        end
      else None
  end.

Section Dispatch.

Variable Math_atan2 : Num.t -> Num.t -> Num.t.
Variable Math_asin : Num.t -> Num.t.
Variable StringToNumber : string -> Num.t.
Variable ArrayToNumber : list JsVal -> Num.t.

(** One action of the settings editor, run on the panel. *)
Definition dispatch (p : Panel) (action : SettingsTreeAction) : Eff Panel :=
  match actionHandler action with
  | Some ev => step Math_atan2 Math_asin StringToNumber ArrayToNumber p ev
  | None => ret p
  end.

End Dispatch.

(** ** Addressing the settings tree

    A path names a node by the keys of its ancestors and its own key; a
    field is named by the path of its node and its key. *)

Fixpoint find_node (nodes : SettingsTreeNodes) (path : list string)
  : option SettingsTreeNode :=
  match path with
  | [] => None
  | k :: rest =>
      match OMap.get k nodes with
      | None => None
      | Some n =>
          match rest with
          | [] => Some n
          | _ :: _ =>
              match node_children n with
              | Some children => find_node children rest
              | None => None
              end
          end
      end
  end.

Definition find_field (nodes : SettingsTreeNodes) (node_path : list string)
  (key : string) : option SettingsField :=
  match find_node nodes node_path with
  | Some n =>
      match node_fields n with
      | Some fields => OMap.get key fields
      | None => None
      end
  | None => None
  end.

Definition display_key (c : DisplayComponent) : string :=
  match c with
  | RollEnabled => "rollEnabled"
  | PitchEnabled => "pitchEnabled"
  | YawEnabled => "yawEnabled"
  end.

Definition topic_key (c : TopicComponent) : string :=
  match c with
  | ShowRoll => "showRoll"
  | ShowPitch => "showPitch"
  | ShowYaw => "showYaw"
  end.

(** ** The list of values under the displays (OrientationPanel2D.tsx)

    One item per cached orientation.  A value is the number whose
    one-decimal text the item shows; it is there when the display is
    enabled and the source's show-flag is truthy. *)

Record ValueItem : Type := mkValueItem {
  item_className : string;
  item_colorIndicator : string;
  item_topicName : string;
  item_roll : option Num.t;
  item_pitch : option Num.t;
  item_yaw : option Num.t
}.

(** [state.displaySettings.f && state.topics[topicName]?.g && value]. *)
Definition shown_value (state : PanelState) (c : DisplayComponent)
  (topicName : string) (flag : TopicConfig -> option bool) (value : Num.t)
  : Eff (option Num.t) :=
  let* g := display_flag state c in
  if flag_truthy g then
    let* cfg := topic_config state topicName in
    ret (if flag_truthy (opt_field cfg flag) then Some value else None)
  else ret None.

Fixpoint value_items (state : PanelState) (index : nat)
  (entries : list (string * Orientation)) : Eff (list ValueItem) :=
  match entries with
  | [] => ret []
  | (topicName, orientation) :: rest =>
      let colorClass := template (CONFIG.colorClasses !! index) in
      let* r := shown_value state RollEnabled topicName showRoll
                  (roll orientation) in
      let* p := shown_value state PitchEnabled topicName showPitch
                  (pitch orientation) in
      let* y := shown_value state YawEnabled topicName showYaw
                  (yaw orientation) in
      let* items := value_items state (S index) rest in
      ret ({| item_className := "topic-value-item " ++ colorClass;
              item_colorIndicator := "topic-color-indicator " ++ colorClass;
              item_topicName := topicName;
              item_roll := r;
              item_pitch := p;
              item_yaw := y |} :: items)
  end.

Definition topicValues (p : Panel) : Eff (list ValueItem) :=
  value_items (state p) 0 (orientations p).

(** ** The indicators of one display, in closed form *)

(** The sources the display effect draws: the first [MAX_TOPICS] enabled
    entries of the cache. *)
Definition drawn_entries (ts : gmap string TopicConfig)
  (l : OMap.t Orientation) : list (string * Orientation) :=
  take MAX_TOPICS (List.filter (fun e => enabled_in ts (fst e)) l).

Definition indicator_at (prefix : string) (i : nat) (angle : Num.t)
  : Indicator :=
  {| className := prefix ++ template (CONFIG.colorClasses !! i);
     backgroundColor := CONFIG.messageColors !! i;
     rotate_deg := angle |}.

(** The indicators of one axis for consecutively indexed entries. *)
Fixpoint axis_indicators (ts : gmap string TopicConfig) (prefix : string)
  (on : bool) (flag : TopicConfig -> option bool)
  (angle : Orientation -> Num.t) (n : nat)
  (entries : list (string * Orientation)) : list Indicator :=
  match entries with
  | [] => []
  | (k, o) :: rest =>
      (if on && flag_truthy (opt_field (ts !! k) flag)
       then [indicator_at prefix n (angle o)]
       else []) ++
      axis_indicators ts prefix on flag angle (S n) rest
  end.


Section Coherence.

Variable Math_atan2 : Num.t -> Num.t -> Num.t.
Variable Math_asin : Num.t -> Num.t.
Variable StringToNumber : string -> Num.t.
Variable ArrayToNumber : list JsVal -> Num.t.

(** The orientation cache follows the message cache: each cache has one
    entry per source, and a cached message that holds a quaternion has
    its conversion cached. *)
Definition coherent (p : Panel) : Prop :=
  NoDup (OMap.keys (messages p)) /\
  NoDup (OMap.keys (orientations p)) /\
  forall k msg o,
    OMap.get k (messages p) = Some msg ->
    converted Math_atan2 Math_asin StringToNumber ArrayToNumber msg = Some o ->
    OMap.get k (orientations p) = Some o.

End Coherence.


(** The three displays, with what the display effect uses for each. *)
Inductive Axis : Type := Roll | Pitch | Yaw.

Definition axis_display (a : Axis) (d : Displays) : list Indicator :=
  match a with
  | Roll => rollDisplay d
  | Pitch => pitchDisplay d
  | Yaw => yawDisplay d
  end.

Definition axis_global (a : Axis) (ds : DisplaySettings) : option bool :=
  match a with
  | Roll => rollEnabled ds
  | Pitch => pitchEnabled ds
  | Yaw => yawEnabled ds
  end.

Definition axis_flag (a : Axis) (cfg : TopicConfig) : option bool :=
  match a with
  | Roll => showRoll cfg
  | Pitch => showPitch cfg
  | Yaw => showYaw cfg
  end.

Definition axis_angle (a : Axis) (o : Orientation) : Num.t :=
  match a with
  | Roll => roll o
  | Pitch => pitch o
  | Yaw => yaw o
  end.

Definition axis_prefix (a : Axis) : string :=
  match a with
  | Roll | Pitch => "topic-indicator "
  | Yaw => "yaw-indicator "
  end.

Definition axis_item (a : Axis) (item : ValueItem) : option Num.t :=
  match a with
  | Roll => item_roll item
  | Pitch => item_pitch item
  | Yaw => item_yaw item
  end.


(** More data for closed examples. *)
Module ExampleData.
Definition imu_topic : Topic :=
  {| name := "/imu"; schemaName := "sensor_msgs/Imu" |}.
Definition camera_topic : Topic :=
  {| name := "/camera"; schemaName := "sensor_msgs/Image" |}.
Definition imu_topics : gmap string TopicConfig := {[ "/imu" := all_shown ]}.
Definition all_displays : DisplaySettings :=
  {| rollEnabled := Some true; pitchEnabled := Some true;
     yawEnabled := Some true |}.

(** The panel once "/imu" is enabled, and once it has a message too. *)
Definition enabled_panel : Panel := Example.after Example.enable_imu.
Definition fed_panel : Panel := Example.after Example.enable_and_feed.
Definition fed_twice_panel : Panel :=
  Example.after (Example.enable_and_feed ++
                 [Deliver (Some [Example.imu_message]) None]).
Definition catalog_panel : Panel :=
  Example.after [Deliver None (Some [imu_topic; camera_topic])].

(** A persisted configuration in which "/imu" lacks two show-flags. *)
Definition partial_config : TopicConfig :=
  {| enabled := Some true; showRoll := None; showPitch := Some false;
     showYaw := None |}.
Definition partial_saved : PanelState :=
  {| topics := Some {[ "/imu" := partial_config ]};
     displaySettings := None |}.

Definition displays_of (p : Panel) : Displays :=
  match fst (updateDisplays p) with
  | Ok d => d
  | Throw _ => mkDisplays 0 [] [] [] []
  end.
End ExampleData.

(** * Properties *)

(** ** Computations *)

Lemma bind_ret_l {A B} (a : A) (f : A -> Eff B) : bind (ret a) f = f a.
Proof. unfold bind, ret. destruct (f a) as [r out]. reflexivity. Qed.

Lemma bind_throw {A B} (e : JsError) (f : A -> Eff B) :
  bind (throw e) f = throw e.
Proof. reflexivity. Qed.

Lemma bind_returns {A B} (m : Eff A) (f : A -> Eff B) (b : B) :
  returns (bind m f) b -> exists a, returns m a /\ returns (f a) b.
Proof.
  unfold returns, bind. destruct m as [[a|e] out]; simpl.
  - destruct (f a) as [r out'] eqn:E. simpl. intros ->.
    exists a. rewrite E. auto.
  - discriminate.
Qed.

Lemma returns_bind {A B} (m : Eff A) (f : A -> Eff B) (a : A) (b : B) :
  returns m a -> returns (f a) b -> returns (bind m f) b.
Proof.
  unfold returns, bind. destruct m as [[a'|e] out]; simpl; [|discriminate].
  intros [= ->]. destruct (f a) as [r out']. simpl. auto.
Qed.

Lemma returns_ret {A} (a b : A) : returns (ret a) b <-> a = b.
Proof. unfold returns, ret. simpl. split; [intros [= ->]|intros ->]; auto. Qed.

Lemma returns_inj {A} (m : Eff A) (a b : A) :
  returns m a -> returns m b -> a = b.
Proof. unfold returns. intros -> [= ->]. reflexivity. Qed.

(** ** Insertion-ordered maps *)

Section OMapFacts.
Context {V : Type}.
Implicit Types (m : OMap.t V) (k : string) (v : V).

Lemma omap_get_set_eq k v m : OMap.get k (OMap.set k v m) = Some v.
Proof.
  induction m as [|[k' v'] m IH]; simpl.
  - unfold OMap.get. simpl. rewrite String.eqb_refl. reflexivity.
  - destruct (String.eqb k k') eqn:E; unfold OMap.get in *; simpl.
    + rewrite String.eqb_refl. reflexivity.
    + rewrite E. exact IH.
Qed.

Lemma omap_get_set_ne k k' v m :
  k <> k' -> OMap.get k' (OMap.set k v m) = OMap.get k' m.
Proof.
  intros Hne. induction m as [|[k0 v0] m IH]; unfold OMap.get in *; simpl.
  - destruct (String.eqb_spec k' k); congruence.
  - destruct (String.eqb_spec k k0) as [->|Hk]; simpl.
    + destruct (String.eqb_spec k' k0); congruence.
    + destruct (String.eqb_spec k' k0); auto.
Qed.

Lemma omap_get_delete_eq k m : OMap.get k (OMap.delete k m) = None.
Proof.
  induction m as [|[k' v'] m IH]; simpl; [reflexivity|].
  destruct (String.eqb k k') eqn:E; [exact IH|].
  unfold OMap.get in *. simpl. rewrite E. exact IH.
Qed.

Lemma omap_get_delete_ne k k' m :
  k <> k' -> OMap.get k' (OMap.delete k m) = OMap.get k' m.
Proof.
  intros Hne. induction m as [|[k0 v0] m IH]; unfold OMap.get in *; simpl.
  - reflexivity.
  - destruct (String.eqb_spec k k0) as [->|Hk]; simpl.
    + destruct (String.eqb_spec k' k0); congruence.
    + destruct (String.eqb_spec k' k0); auto.
Qed.

Lemma omap_has_get k m : OMap.has k m = true <-> is_Some (OMap.get k m).
Proof.
  unfold OMap.has. destruct (OMap.get k m); split; intros H; eauto.
  - discriminate.
  - destruct H; discriminate.
Qed.

Lemma omap_has_false k m : OMap.has k m = false <-> OMap.get k m = None.
Proof.
  unfold OMap.has. destruct (OMap.get k m); split; congruence.
Qed.

Lemma omap_get_keys k m : is_Some (OMap.get k m) <-> k ∈ OMap.keys m.
Proof.
  unfold OMap.get, OMap.keys.
  induction m as [|[k' v'] m IH]; simpl.
  - split; [intros [? ?]; discriminate | intros H; inversion H].
  - rewrite elem_of_cons. destruct (String.eqb_spec k k') as [->|Hne].
    + split; eauto.
    + rewrite IH. split; [auto | intros [?|?]; congruence].
Qed.

Lemma omap_keys_set k v m :
  OMap.keys (OMap.set k v m) =
  if OMap.has k m then OMap.keys m else OMap.keys m ++ [k].
Proof.
  unfold OMap.has, OMap.get, OMap.keys.
  induction m as [|[k' v'] m IH]; simpl; [reflexivity|].
  destruct (String.eqb_spec k k') as [->|Hne]; simpl; [reflexivity|].
  rewrite IH. destruct (assoc k m); reflexivity.
Qed.

Lemma omap_nodup_set k v m :
  NoDup (OMap.keys m) -> NoDup (OMap.keys (OMap.set k v m)).
Proof.
  intros Hnd. rewrite omap_keys_set.
  destruct (OMap.has k m) eqn:E; [assumption|].
  apply NoDup_app. split; [assumption|]. split.
  - intros x Hx Hin. apply list_elem_of_singleton in Hin. subst x.
    apply omap_get_keys in Hx. apply omap_has_get in Hx. congruence.
  - apply NoDup_singleton.
Qed.

Lemma omap_keys_delete k m :
  OMap.keys (OMap.delete k m) =
  List.filter (fun k' => negb (String.eqb k k')) (OMap.keys m).
Proof.
  unfold OMap.keys. induction m as [|[k' v'] m IH]; simpl; [reflexivity|].
  destruct (String.eqb k k'); simpl; rewrite IH; reflexivity.
Qed.

Lemma omap_nodup_delete k m :
  NoDup (OMap.keys m) -> NoDup (OMap.keys (OMap.delete k m)).
Proof.
  unfold OMap.keys. induction m as [|[k' v'] m IH]; simpl; [auto|].
  intros Hnd. apply NoDup_cons in Hnd as [Hnotin Hnd].
  destruct (String.eqb k k'); [auto|]. simpl. apply NoDup_cons. split; [|auto].
  intros Hin. apply Hnotin.
  fold (OMap.keys (OMap.delete k m)) in Hin. fold (OMap.keys m).
  apply omap_get_keys in Hin. apply omap_get_keys.
  destruct (String.eqb_spec k k') as [->|Hne].
  - rewrite omap_get_delete_eq in Hin. destruct Hin; discriminate.
  - rewrite omap_get_delete_ne in Hin; auto.
Qed.

End OMapFacts.

(** ** Quaternion extractor *)

Lemma get_prop_object (v : JsVal) (k : Key) :
  is_object v = true -> get_prop v k = ret (prop v k).
Proof.
  destruct v; simpl; try discriminate; reflexivity.
Qed.

Lemma get_prop_opt_prop (v : JsVal) (k : Key) :
  get_prop_opt v k = ret (prop v k).
Proof.
  destruct v; reflexivity.
Qed.

Lemma get_prop_truthy (v : JsVal) (k : Key) :
  truthy (prop v k) = true -> get_prop v k = ret (prop v k).
Proof.
  destruct v; simpl; try discriminate; reflexivity.
Qed.

Lemma prop_truthy_object (v : JsVal) (k : Key) :
  truthy (prop v k) = true -> is_object v = true.
Proof. destruct v; simpl; try discriminate; reflexivity. Qed.

Lemma prop_object_object (v : JsVal) (k : Key) :
  is_object (prop v k) = true -> is_object v = true.
Proof. destruct v; simpl; try discriminate; reflexivity. Qed.

(** The chain of conditionals is the priority list [shapes]. *)
Lemma extractQuaternion_object (msg : JsVal) :
  is_object msg = true ->
  extractQuaternion msg = ret (first_match shapes msg).
Proof.
  intros Hobj. unfold extractQuaternion.
  assert (Hg : negb (truthy msg) || negb (String.eqb (typeof msg) "object")
               = false) by (destruct msg; try discriminate; reflexivity).
  rewrite Hg. cbv zeta.
  rewrite !(get_prop_object msg) by assumption.
  repeat (rewrite bind_ret_l || rewrite get_prop_opt_prop).
  unfold first_match, shapes, nested_shapes. simpl List.find.
  unfold follow; simpl fold_left.
  destruct (is_defined (prop msg k_x) && is_defined (prop msg k_y) &&
            is_defined (prop msg k_z) && is_defined (prop msg k_w));
    [reflexivity|].
  destruct (truthy (prop msg k_orientation)); [reflexivity|].
  destruct (truthy (prop (prop msg k_pose) k_orientation)) eqn:E3.
  { rewrite ?bind_ret_l. apply get_prop_truthy; assumption. }
  destruct (truthy (prop (prop (prop msg k_pose) k_pose) k_orientation))
    eqn:E4.
  { rewrite ?bind_ret_l.
    rewrite (get_prop_object (prop msg k_pose))
      by (eapply prop_object_object, prop_truthy_object; eassumption).
    rewrite ?bind_ret_l. apply get_prop_truthy; assumption. }
  destruct (truthy (prop msg k_rotation)); [reflexivity|].
  destruct (truthy (prop (prop msg k_transform) k_rotation)) eqn:E6.
  { rewrite ?bind_ret_l. apply get_prop_truthy; assumption. }
  reflexivity.
Qed.

Lemma extractQuaternion_not_object (message : JsVal) :
  is_object message = false -> extractQuaternion message = ret JUndefined.
Proof.
  destruct message; simpl; try discriminate; intros _;
    unfold extractQuaternion; simpl; rewrite ?orb_true_r; reflexivity.
Qed.

(** The extractor, on every message, as a priority list. *)
Lemma extractQuaternion_first_match (message : JsVal) :
  extractQuaternion message = ret (extract_by shapes message).
Proof.
  unfold extract_by. destruct (is_object message) eqn:E.
  - apply extractQuaternion_object; assumption.
  - apply extractQuaternion_not_object; assumption.
Qed.

(** C2 (amended).  [extractQuaternion] never throws and writes nothing to
    the console; on every message it returns the first match of the
    six-shape priority list, where shape 1 is the message itself when
    none of its x, y, z, w is undefined (numeric or not), shapes 2 to 6
    are the fields [orientation], [pose.orientation],
    [pose.pose.orientation], [rotation] and [transform.rotation] when
    truthy, and [undefined] is returned when no shape matches or the
    message is not an object. *)
Theorem extractQuaternion_priority (message : JsVal) :
  extractQuaternion message =
  ret (if is_object message then first_match shapes message else JUndefined).
Proof.
  destruct (is_object message) eqn:E.
  - apply extractQuaternion_object. exact E.
  - destruct message; try discriminate E;
      unfold extractQuaternion; simpl; rewrite ?orb_true_r; reflexivity.
Qed.

(** C2 (counterexample).  A message whose x, y, z, w are present but are
    not numbers, next to a valid [orientation] field: the code returns
    the message itself, the list of the specification (shape 1 for
    numeric fields only) selects the [orientation] field. *)
Lemma extractQuaternion_spec_shapes_counterexample :
  let m := JObj [("x", JStr "0"); ("y", JStr "0"); ("z", JStr "0");
                 ("w", JStr "1"); ("orientation", identity_quaternion)] in
  extract_by spec_shapes m = identity_quaternion /\
  extractQuaternion m = ret m /\
  extractQuaternion m <> ret (extract_by spec_shapes m).
Proof.
  cbv zeta. split; [reflexivity|]. split; [reflexivity|].
  rewrite extractQuaternion_first_match. vm_compute. discriminate.
Qed.

(** ** Euler converter *)

(** At gimbal lock the clamp is exactly plus or minus 90 degrees: the
    binary64 product (sign(s)·π/2)·(180/π) is sign(s)·90. *)
Lemma gimbal_lock_degrees (s : Num.t) :
  (Math_abs s >= Num.one)%num = true ->
  to_degrees (Math_sign s * Math_PI / Num.two)%num
  = (Math_sign s * Num.ninety)%num.
Proof.
  intros H. destruct s as [b|b| |b m e];
    try (vm_compute in H; discriminate H);
    destruct b; vm_compute; reflexivity.
Qed.

Lemma gimbal_lock_sign (s : Num.t) :
  (Math_abs s >= Num.one)%num = true ->
  Math_sign s = Num.one \/ Math_sign s = Num.minus_one.
Proof.
  intros H. destruct s as [b|b| |b m e];
    try (vm_compute in H; discriminate H);
    destruct b; simpl; auto.
Qed.

Section EulerFacts.

Variable Math_atan2 : Num.t -> Num.t -> Num.t.
Variable Math_asin : Num.t -> Num.t.
Variable StringToNumber : string -> Num.t.
Variable ArrayToNumber : list JsVal -> Num.t.

Local Abbreviation toEuler :=
  (quaternionToEuler Math_atan2 Math_asin StringToNumber ArrayToNumber).
Local Abbreviation toNumber := (ToNumber StringToNumber ArrayToNumber).

Lemma quaternionToEuler_valid (q : JsVal) (w : Num.t) :
  prop q k_w = JNum w ->
  toEuler q =
  ret (spec_toEuler Math_atan2 Math_asin
         (toNumber (prop q k_x)) (toNumber (prop q k_y))
         (toNumber (prop q k_z)) w).
Proof.
  intros Hw. destruct q; try discriminate Hw.
  unfold quaternionToEuler.
  rewrite !(get_prop_object (JObj fields)) by reflexivity.
  cbn [truthy negb]. rewrite !bind_ret_l. rewrite Hw.
  cbn [typeof String.eqb Ascii.eqb Bool.eqb negb].
  rewrite ?bind_ret_l. cbv zeta. cbn [ToNumber].
  unfold spec_toEuler. cbv zeta.
  destruct (Math_abs _ >= Num.one)%num eqn:E; [|reflexivity].
  rewrite gimbal_lock_degrees by exact E. reflexivity.
Qed.

Lemma quaternionToEuler_invalid (q : JsVal) :
  is_number (prop q k_w) = false ->
  toEuler q = (Ok zero_orientation, [Warn "Invalid quaternion:" q]).
Proof.
  intros Hw. unfold quaternionToEuler.
  destruct (truthy q) eqn:Ht; cbn [negb].
  - assert (Hg : get_prop q k_w = ret (prop q k_w)).
    { destruct q; try discriminate Ht; reflexivity. }
    rewrite Hg, !bind_ret_l.
    assert (Hn : String.eqb (typeof (prop q k_w)) "number" = false).
    { destruct (prop q k_w); try discriminate Hw; reflexivity. }
    rewrite Hn. reflexivity.
  - reflexivity.
Qed.

(** The converter never throws. *)
Lemma quaternionToEuler_total (q : JsVal) :
  exists o out, toEuler q = (Ok o, out).
Proof.
  destruct (is_number (prop q k_w)) eqn:E.
  - destruct (prop q k_w) eqn:Hw; try discriminate E.
    rewrite (quaternionToEuler_valid q n Hw). unfold ret. eauto.
  - rewrite (quaternionToEuler_invalid q E). eauto.
Qed.


(** C6.  When the [w] field is missing or is not a number, and also when
    the quaternion itself is null or undefined, the converter does not
    throw: it returns [{roll: 0, pitch: 0, yaw: 0}] and writes exactly one
    warning to the console. *)
Theorem quaternionToEuler_guard (q : JsVal) :
  is_number (prop q k_w) = false ->
  toEuler q = (Ok zero_orientation, [Warn "Invalid quaternion:" q]).
Proof.
  intros Hw. unfold quaternionToEuler.
  destruct q as [| |b|n|s|elems|fields]; cbn [truthy negb];
    try reflexivity.
  - destruct b; reflexivity.
  - destruct (Num.is_NaN n || Num.is_zero n); reflexivity.
  - destruct (String.eqb s ""); reflexivity.
  - rewrite (get_prop_object (JObj fields) k_w eq_refl), !bind_ret_l.
    destruct (prop (JObj fields) k_w); try discriminate Hw; reflexivity.
Qed.

End EulerFacts.

(** ** Source state model *)

Lemma topic_config_present (state : PanelState)
  (ts : gmap string TopicConfig) (topicName : string) :
  topics state = Some ts ->
  topic_config state topicName = ret (ts !! topicName).
Proof. unfold topic_config. intros ->. reflexivity. Qed.

Lemma set_flag_get (c : TopicComponent) (v : bool) (cfg : TopicConfig) :
  get_flag c (set_flag c v cfg) = Some v.
Proof. destruct c; reflexivity. Qed.

Lemma set_flag_other (c c' : TopicComponent) (v : bool) (cfg : TopicConfig) :
  c' <> c -> get_flag c' (set_flag c v cfg) = get_flag c' cfg.
Proof. destruct c, c'; intros H; try reflexivity; congruence. Qed.

Lemma set_flag_enabled (c : TopicComponent) (v : bool) (cfg : TopicConfig) :
  enabled (set_flag c v cfg) = enabled cfg.
Proof. destruct c; reflexivity. Qed.

Lemma updateTopicStatus_present (state : PanelState)
  (ts : gmap string TopicConfig) (topicName : string) (e : bool) :
  topics state = Some ts ->
  updateTopicStatus state topicName e =
  ret {| topics :=
           Some (<[topicName :=
                    {| enabled := Some e;
                       showRoll :=
                         Some (default true (opt_field (ts !! topicName) showRoll));
                       showPitch :=
                         Some (default true (opt_field (ts !! topicName) showPitch));
                       showYaw :=
                         Some (default true (opt_field (ts !! topicName) showYaw))
                    |}]> ts);
         displaySettings := displaySettings state |}.
Proof.
  intros Hts. unfold updateTopicStatus.
  rewrite (topic_config_present state ts topicName Hts), bind_ret_l.
  rewrite Hts. reflexivity.
Qed.

Lemma topic_member_present (state : PanelState)
  (ts : gmap string TopicConfig) (topicName : string) :
  topics state = Some ts ->
  topic_member state topicName = ret (own_or_inherited ts topicName).
Proof. unfold topic_member. intros ->. reflexivity. Qed.

Lemma own_or_inherited_own (ts : gmap string TopicConfig) (key : string)
  (cfg : TopicConfig) :
  ts !! key = Some cfg -> own_or_inherited ts key = Some cfg.
Proof. unfold own_or_inherited. intros ->. reflexivity. Qed.

(** A flag read through [?.] does not tell an inherited member from a
    missing key: the own property decides, as [topic_config] has it. *)
Lemma own_or_inherited_flag (ts : gmap string TopicConfig) (key : string)
  (flag : TopicConfig -> option bool) :
  flag inherited_member = None ->
  opt_field (own_or_inherited ts key) flag = opt_field (ts !! key) flag.
Proof.
  intros Hflag. unfold own_or_inherited.
  destruct (ts !! key); [reflexivity|].
  destruct (inherited key); [exact Hflag|reflexivity].
Qed.

Lemma topic_member_flag (state : PanelState) (topicName : string)
  (flag : TopicConfig -> option bool) :
  flag inherited_member = None ->
  (let* m := topic_member state topicName in ret (opt_field m flag)) =
  (let* c := topic_config state topicName in ret (opt_field c flag)).
Proof.
  intros Hflag. unfold topic_member, topic_config.
  destruct (topics state) as [ts|]; [|reflexivity].
  rewrite !bind_ret_l, (own_or_inherited_flag ts topicName flag Hflag).
  reflexivity.
Qed.

Lemma updateTopicComponentStatus_present (state : PanelState)
  (ts : gmap string TopicConfig) (topicName : string)
  (component : TopicComponent) (v : bool) :
  topics state = Some ts ->
  updateTopicComponentStatus state topicName component v =
  ret (match own_or_inherited ts topicName with
       | None => state
       | Some cfg =>
           {| topics := Some (<[topicName := set_flag component v cfg]> ts);
              displaySettings := displaySettings state |}
       end).
Proof.
  intros Hts. unfold updateTopicComponentStatus.
  rewrite (topic_member_present state ts topicName Hts), bind_ret_l.
  rewrite Hts. destruct (own_or_inherited ts topicName); reflexivity.
Qed.

(** C7.  [updateTopicComponentStatus] on a state whose topics mapping is
    present, by cases on the name.  For a source that has a config, the
    result is a state in which the named show-flag of that source has the
    given value while the source's [enabled] flag, its two other
    show-flags, the config of every other source and the global display
    settings are those of the input.  For a name that has no config and
    is no property name of [Object.prototype], the result is the input
    state.  For a name that has no config and is such a property name, as
    "constructor", the guard reads the inherited member and lets the call
    through: the result differs from the input state, it holds a config
    for the name that has the one show-flag and nothing else. *)
Theorem updateTopicComponentStatus_cases (state : PanelState)
  (ts : gmap string TopicConfig) (topicName : string)
  (component : TopicComponent) (v : bool) :
  topics state = Some ts ->
  (forall cfg, ts !! topicName = Some cfg ->
   exists ts' cfg',
     updateTopicComponentStatus state topicName component v =
       ret {| topics := Some ts'; displaySettings := displaySettings state |} /\
     ts' !! topicName = Some cfg' /\
     get_flag component cfg' = Some v /\
     enabled cfg' = enabled cfg /\
     (forall c, c <> component -> get_flag c cfg' = get_flag c cfg) /\
     (forall other, other <> topicName -> ts' !! other = ts !! other)) /\
  (ts !! topicName = None -> inherited topicName = false ->
   updateTopicComponentStatus state topicName component v = ret state) /\
  (ts !! topicName = None -> inherited topicName = true ->
   exists ts' cfg',
     updateTopicComponentStatus state topicName component v =
       ret {| topics := Some ts'; displaySettings := displaySettings state |} /\
     {| topics := Some ts'; displaySettings := displaySettings state |}
       <> state /\
     ts' !! topicName = Some cfg' /\
     get_flag component cfg' = Some v /\
     enabled cfg' = None /\
     (forall c, c <> component -> get_flag c cfg' = None) /\
     (forall other, other <> topicName -> ts' !! other = ts !! other)).
Proof.
  intros Hts.
  pose proof (updateTopicComponentStatus_present state ts topicName
                component v Hts) as Hrun.
  unfold own_or_inherited in Hrun.
  split; [|split].
  - intros cfg Hcfg. rewrite Hcfg in Hrun.
    exists (<[topicName := set_flag component v cfg]> ts),
           (set_flag component v cfg).
    split; [exact Hrun|]. split; [apply lookup_insert_eq|].
    split; [apply set_flag_get|]. split; [apply set_flag_enabled|].
    split.
    + intros c Hc. apply set_flag_other; assumption.
    + intros other Hother. apply lookup_insert_ne; congruence.
  - intros Hnone Hinh. rewrite Hrun, Hnone, Hinh. reflexivity.
  - intros Hnone Hinh. rewrite Hnone, Hinh in Hrun.
    exists (<[topicName := set_flag component v inherited_member]> ts),
           (set_flag component v inherited_member).
    split; [exact Hrun|]. split.
    { intros Heq. apply (f_equal topics) in Heq. cbn [topics] in Heq.
      rewrite Hts in Heq. injection Heq as Heq.
      apply (f_equal (fun m => m !! topicName)) in Heq.
      rewrite lookup_insert_eq, Hnone in Heq. discriminate Heq. }
    split; [apply lookup_insert_eq|].
    split; [apply set_flag_get|]. split; [apply set_flag_enabled|].
    split.
    + intros c Hc. rewrite set_flag_other by assumption.
      destruct c; reflexivity.
    + intros other Hother. apply lookup_insert_ne; congruence.
Qed.

(** C8 (amended).  [updateTopicStatus] is a function of its arguments that
    returns a new state: the config stored for the name has the given
    [enabled] value; each of its three show-flags is the flag of the
    existing config when there is one and it defines the flag, and true
    otherwise, that is, when the name had no config or its config lacks
    the flag; the config of every other name and the display settings are
    unchanged, and every name that had a config still has one. *)
Theorem updateTopicStatus_upsert (state : PanelState)
  (ts : gmap string TopicConfig) (topicName : string) (e : bool) :
  topics state = Some ts ->
  exists ts' cfg',
    updateTopicStatus state topicName e =
      ret {| topics := Some ts'; displaySettings := displaySettings state |} /\
    ts' !! topicName = Some cfg' /\
    enabled cfg' = Some e /\
    (forall cfg, ts !! topicName = Some cfg ->
       forall c, get_flag c cfg' = Some (default true (get_flag c cfg))) /\
    (ts !! topicName = None -> forall c, get_flag c cfg' = Some true) /\
    (forall other, other <> topicName -> ts' !! other = ts !! other) /\
    (forall k, is_Some (ts !! k) -> is_Some (ts' !! k)).
Proof.
  intros Hts. eexists _, _. split.
  { apply updateTopicStatus_present. exact Hts. }
  split; [apply lookup_insert_eq|]. split; [reflexivity|].
  split; [|split; [|split]].
  - intros cfg Hcfg c. rewrite Hcfg. destruct c; reflexivity.
  - intros Hnone c. rewrite Hnone. destruct c; reflexivity.
  - intros other Hother. apply lookup_insert_ne. congruence.
  - intros k Hk. destruct (decide (topicName = k)) as [->|Hne].
    + rewrite lookup_insert_eq. eauto.
    + rewrite lookup_insert_ne by assumption. exact Hk.
Qed.

(** C8 (counterexample).  A panel restored from a persisted configuration
    in which "/imu" is enabled and has no [showRoll] flag: enabling
    "/imu" again stores a config whose [showRoll] is true, so that the
    show-flags of the existing config are not kept as they were. *)
Lemma updateTopicStatus_fills_missing_flags :
  let state := initialPanelState (Some ExampleData.partial_saved) in
  exists ts cfg ts' cfg',
    topics state = Some ts /\
    ts !! "/imu" = Some cfg /\
    updateTopicStatus state "/imu" true =
      ret {| topics := Some ts'; displaySettings := displaySettings state |} /\
    ts' !! "/imu" = Some cfg' /\
    get_flag ShowRoll cfg = None /\
    get_flag ShowRoll cfg' = Some true /\
    get_flag ShowRoll cfg' <> get_flag ShowRoll cfg.
Proof.
  cbv zeta.
  assert (Hl : ({[ "/imu" := ExampleData.partial_config ]} ∪ ∅
                : gmap string TopicConfig) !! "/imu"
               = Some ExampleData.partial_config)
    by (vm_compute; reflexivity).
  eexists _, ExampleData.partial_config, _, _.
  split; [reflexivity|]. split; [exact Hl|].
  split; [apply updateTopicStatus_present; reflexivity|].
  split; [apply lookup_insert_eq|].
  split; [reflexivity|].
  split; [vm_compute; reflexivity|]. vm_compute. discriminate.
Qed.

(** ** Initialization *)

(** C5 (amended).  Initialization is a total function of the persisted
    configuration.  It merges the top-level keys only: [topics] is the
    persisted mapping (empty when there is none), with every topic's
    flags as persisted, and [displaySettings] is the persisted object as
    a whole when there is one, the all-true defaults otherwise.  When the
    persisted [displaySettings] is absent or defines its three flags, the
    result is the deep merge over the defaults and its three display
    flags are defined. *)
Theorem initialPanelState_shallow_merge (savedState : option PanelState) :
  topics (initialPanelState savedState)
    = Some (spread_dict (opt_field savedState topics)) /\
  displaySettings (initialPanelState savedState)
    = match opt_field savedState displaySettings with
      | Some d => Some d
      | None => displaySettings getInitialState
      end /\
  ((forall d, opt_field savedState displaySettings = Some d ->
              display_complete d) ->
   initialPanelState savedState = deepMergedState savedState /\
   exists d, displaySettings (initialPanelState savedState) = Some d /\
             display_complete d).
Proof.
  unfold initialPanelState. cbn [topics displaySettings getInitialState].
  assert (Hu : forall m : gmap string TopicConfig, m ∪ spread_dict (Some ∅) = m).
  { intros m. unfold spread_dict. simpl. apply (right_id_L ∅ (∪)). }
  split; [rewrite Hu; reflexivity|]. split; [reflexivity|].
  intros Hc. rewrite Hu. unfold deepMergedState.
  destruct (opt_field savedState displaySettings) as [d|] eqn:Hd.
  - destruct (Hc d eq_refl) as ([r Hr] & [p Hp] & [y Hy]).
    split.
    + f_equal. simpl. rewrite Hr, Hp, Hy. destruct d; simpl in *.
      congruence.
    + exists d. split; [reflexivity|]. repeat split; eauto.
  - split; [reflexivity|]. eexists. split; [reflexivity|].
    repeat split; simpl; eauto.
Qed.

(** C5 (counterexample).  A persisted [displaySettings] holding only
    [rollEnabled]: after initialization [pitchEnabled] and [yawEnabled]
    are undefined, where the deep merge has the default [true]. *)
Lemma initialPanelState_not_deep_merge :
  let saved := Some {| topics := None;
                       displaySettings :=
                         Some {| rollEnabled := Some false;
                                 pitchEnabled := None;
                                 yawEnabled := None |} |} in
  opt_field (displaySettings (initialPanelState saved)) pitchEnabled = None /\
  opt_field (displaySettings (deepMergedState saved)) pitchEnabled = Some true /\
  initialPanelState saved <> deepMergedState saved.
Proof.
  cbv zeta. split; [reflexivity|]. split; [reflexivity|].
  intros H. apply (f_equal displaySettings) in H. simpl in H. discriminate H.
Qed.

(** ** Settings projection *)

Lemma display_flag_present (state : PanelState) (ds : DisplaySettings)
  (c : DisplayComponent) :
  displaySettings state = Some ds ->
  display_flag state c = ret (get_display c ds).
Proof. unfold display_flag. intros ->. reflexivity. Qed.

Lemma topic_node_present (state : PanelState) (ts : gmap string TopicConfig)
  (result : SettingsTreeNodes) (t : Topic) :
  topics state = Some ts ->
  topic_node state result t = ret (add_candidate ts result t).
Proof.
  intros Hts. unfold topic_node, add_candidate, candidate_node.
  rewrite !(topic_config_present state ts (name t) Hts), bind_ret_l.
  cbv zeta.
  destruct (default false (opt_field (ts !! name t) enabled));
    rewrite ?bind_ret_l; destruct (String.eqb (name t) "__proto__");
    reflexivity.
Qed.

(** A candidate of any other name than [__proto__] is stored under its
    name; one named [__proto__] leaves the entries as they are. *)
Lemma add_candidate_named (ts : gmap string TopicConfig)
  (result : SettingsTreeNodes) (t : Topic) :
  name t <> "__proto__" ->
  add_candidate ts result t =
  OMap.set (name t) (candidate_node ts (name t)) result.
Proof.
  intros Hne. unfold add_candidate.
  destruct (String.eqb_spec (name t) "__proto__"); [contradiction|].
  reflexivity.
Qed.

Lemma add_candidate_proto (ts : gmap string TopicConfig)
  (result : SettingsTreeNodes) (t : Topic) :
  name t = "__proto__" -> add_candidate ts result t = result.
Proof. intros Heq. unfold add_candidate. rewrite Heq. reflexivity. Qed.

Lemma forEachM_topic_node (state : PanelState) (ts : gmap string TopicConfig)
  (l : list Topic) (acc : SettingsTreeNodes) :
  topics state = Some ts ->
  forEachM (topic_node state) l acc = ret (fold_left (add_candidate ts) l acc).
Proof.
  intros Hts. revert acc. induction l as [|t l IH]; intros acc; simpl.
  - reflexivity.
  - rewrite (topic_node_present state ts acc t Hts), bind_ret_l. apply IH.
Qed.

Lemma fold_candidates_keep (ts : gmap string TopicConfig) (l : list Topic)
  (acc : SettingsTreeNodes) (k : string) :
  OMap.get k acc = Some (candidate_node ts k) ->
  OMap.get k (fold_left (add_candidate ts) l acc) = Some (candidate_node ts k).
Proof.
  revert acc. induction l as [|t l IH]; intros acc Hacc; simpl; [exact Hacc|].
  apply IH.
  destruct (decide (name t = "__proto__")) as [Hproto|Hproto].
  { rewrite add_candidate_proto by exact Hproto. exact Hacc. }
  rewrite add_candidate_named by exact Hproto.
  destruct (decide (name t = k)) as [<-|Hne].
  - apply omap_get_set_eq.
  - rewrite omap_get_set_ne by assumption. exact Hacc.
Qed.

Lemma fold_candidates_get (ts : gmap string TopicConfig) (l : list Topic)
  (acc : SettingsTreeNodes) (t : Topic) :
  t ∈ l ->
  name t <> "__proto__" ->
  OMap.get (name t) (fold_left (add_candidate ts) l acc)
  = Some (candidate_node ts (name t)).
Proof.
  intros Hin Hproto. revert acc Hin.
  induction l as [|t' l IH]; intros acc Hin.
  - inversion Hin.
  - apply elem_of_cons in Hin as [->|Hin]; simpl.
    + apply fold_candidates_keep.
      rewrite add_candidate_named by exact Hproto. apply omap_get_set_eq.
    + apply IH. exact Hin.
Qed.

Lemma buildSettingsTree_present (state : PanelState)
  (ts : gmap string TopicConfig) (ds : DisplaySettings)
  (candidates : list Topic) :
  topics state = Some ts ->
  displaySettings state = Some ds ->
  exists general,
    buildSettingsTree state candidates =
      ret [("general", general);
           ("topics",
            {| node_label := "Topics";
               node_defaultExpansionState := None;
               node_visible := None;
               node_fields := None;
               node_children :=
                 Some (fold_left (add_candidate ts) candidates OMap.empty) |})]
    /\
    exists fr fp fy,
      node_fields general =
        Some [("rollEnabled", fr); ("pitchEnabled", fp); ("yawEnabled", fy)] /\
      field_value fr = rollEnabled ds /\
      field_value fp = pitchEnabled ds /\
      field_value fy = yawEnabled ds.
Proof.
  intros Hts Hds. unfold buildSettingsTree.
  rewrite (forEachM_topic_node state ts candidates OMap.empty Hts), bind_ret_l.
  rewrite !(display_flag_present state ds _ Hds), !bind_ret_l.
  eexists. split; [reflexivity|].
  eexists _, _, _. split; [reflexivity|]. auto.
Qed.

(** C9 (amended).  On every state whose [topics] mapping and
    [displaySettings] object are present, whatever flags they miss, and
    for every list of candidate sources, [buildSettingsTree] returns a
    tree without throwing.  The "general" node carries the three display
    flags as they are in the state.  Each candidate whose name is not
    [__proto__] has a node whose visibility flag is the source's
    [enabled] flag, false when the source has no config or no such flag;
    the node has the three show-flag fields exactly when that flag is
    true, each seeded from the config and true when the config or the
    flag is missing. *)
Theorem buildSettingsTree_total (state : PanelState)
  (ts : gmap string TopicConfig) (ds : DisplaySettings)
  (candidates : list Topic) :
  topics state = Some ts ->
  displaySettings state = Some ds ->
  exists general nodes,
    buildSettingsTree state candidates =
      ret [("general", general);
           ("topics", {| node_label := "Topics";
                         node_defaultExpansionState := None;
                         node_visible := None;
                         node_fields := None;
                         node_children := Some nodes |})] /\
    (exists fr fp fy,
       node_fields general =
         Some [("rollEnabled", fr); ("pitchEnabled", fp); ("yawEnabled", fy)] /\
       field_value fr = rollEnabled ds /\
       field_value fp = pitchEnabled ds /\
       field_value fy = yawEnabled ds) /\
    (forall t, t ∈ candidates -> name t <> "__proto__" ->
       let cfg := ts !! name t in
       let isEnabled := default false (opt_field cfg enabled) in
       exists node,
         OMap.get (name t) nodes = Some node /\
         node_label node = name t /\
         node_visible node = Some isEnabled /\
         node_children node =
           (if isEnabled
            then Some [("topicSettings", topic_settings_node cfg)]
            else None) /\
         exists fr fp fy,
           node_fields (topic_settings_node cfg) =
             Some [("showRoll", fr); ("showPitch", fp); ("showYaw", fy)] /\
           field_value fr = Some (default true (opt_field cfg showRoll)) /\
           field_value fp = Some (default true (opt_field cfg showPitch)) /\
           field_value fy = Some (default true (opt_field cfg showYaw))).
Proof.
  intros Hts Hds.
  destruct (buildSettingsTree_present state ts ds candidates Hts Hds)
    as (general & Hrun & Hgeneral).
  eexists _, _. split; [exact Hrun|]. split; [exact Hgeneral|].
  intros t Hin Hproto. cbv zeta. exists (candidate_node ts (name t)).
  split; [apply fold_candidates_get; assumption|].
  split; [reflexivity|]. split; [reflexivity|]. split; [reflexivity|].
  eexists _, _, _. split; [reflexivity|]. auto.
Qed.

(** Where the containers are missing the projection throws: always
    without [displaySettings], and without [topics] as soon as there is a
    candidate. *)
Lemma buildSettingsTree_raises (state : PanelState) (candidates : list Topic) :
  displaySettings state = None \/ (topics state = None /\ candidates <> []) ->
  raises (buildSettingsTree state candidates).
Proof.
  intros H. unfold buildSettingsTree, raises.
  destruct (topics state) as [ts|] eqn:Hts.
  - destruct H as [Hds|[Hnone _]]; [|discriminate Hnone].
    rewrite (forEachM_topic_node state ts candidates OMap.empty Hts).
    rewrite bind_ret_l. unfold display_flag. rewrite Hds.
    eexists. reflexivity.
  - destruct candidates as [|t l].
    + destruct H as [Hds|[_ Hne]]; [|congruence].
      cbn [forEachM]. rewrite bind_ret_l. unfold display_flag. rewrite Hds.
      eexists. reflexivity.
    + cbn [forEachM]. unfold topic_node, topic_config. rewrite Hts.
      eexists. reflexivity.
Qed.

(** C9 (counterexample).  On a state whose [displaySettings] object is
    absent, [buildSettingsTree] throws a TypeError, already for an empty
    list of candidates; so it does on a state whose [topics] mapping is
    absent as soon as there is a candidate. *)
Lemma buildSettingsTree_raises_on_absent :
  raises (buildSettingsTree {| topics := Some ∅; displaySettings := None |} [])
  /\
  raises (buildSettingsTree
            {| topics := None; displaySettings := displaySettings getInitialState |}
            [{| name := "/imu"; schemaName := "sensor_msgs/Imu" |}]).
Proof.
  split; eexists; vm_compute; reflexivity.
Qed.

(** ** Visual refresh *)

Lemma draw_loop (state : PanelState) (ts : gmap string TopicConfig)
  (r p y : bool) (l : OMap.t Orientation) (d : Displays) :
  topics state = Some ts ->
  exists d',
    forEachM (draw_topic state r p y) l d = ret d' /\
    indexed d' =
      indexed d ++
      number_from (topicIndex d)
        (take (MAX_TOPICS - topicIndex d)
              (List.filter (enabled_in ts) (OMap.keys l))).
Proof.
  intros Hts. revert d. induction l as [|[k o] l IH]; intros d.
  - exists d. split; [reflexivity|].
    simpl. rewrite take_nil. simpl. rewrite app_nil_r. reflexivity.
  - cbn [forEachM]. unfold draw_topic at 1.
    destruct (MAX_TOPICS <=? topicIndex d)%nat eqn:Hcap.
    + rewrite bind_ret_l. destruct (IH d) as (d' & Hrun & Hidx).
      exists d'. split; [exact Hrun|]. rewrite Hidx.
      apply Nat.leb_le in Hcap.
      replace (MAX_TOPICS - topicIndex d) with 0 by lia.
      reflexivity.
    + rewrite (topic_config_present state ts k Hts), bind_ret_l.
      apply Nat.leb_gt in Hcap.
      change (OMap.keys ((k, o) :: l)) with (k :: OMap.keys l).
      cbn [List.filter].
      destruct (ts !! k) as [cfg|] eqn:Hcfg.
      * destruct (flag_truthy (enabled cfg)) eqn:Hen; cbn [negb].
        -- assert (He : enabled_in ts k = true)
             by (unfold enabled_in; rewrite Hcfg; exact Hen).
           rewrite He, bind_ret_l.
           match goal with
           | |- context [forEachM _ l ?d0] =>
               destruct (IH d0) as (d' & Hrun & Hidx)
           end.
           exists d'. split; [exact Hrun|]. rewrite Hidx.
           cbn [indexed topicIndex].
           destruct (MAX_TOPICS - topicIndex d) as [|n] eqn:Hn; [lia|].
           replace (MAX_TOPICS - S (topicIndex d)) with n by lia.
           cbn [take number_from]. rewrite <- app_assoc. reflexivity.
        -- assert (He : enabled_in ts k = false)
             by (unfold enabled_in; rewrite Hcfg; exact Hen).
           rewrite He, bind_ret_l. apply IH.
      * assert (He : enabled_in ts k = false)
          by (unfold enabled_in; rewrite Hcfg; reflexivity).
        rewrite He, bind_ret_l. apply IH.
Qed.

(** The loop of the display effect gives the indices 0, 1, ... to the
    first [MAX_TOPICS] enabled sources of the cache, in the order of the
    cache, and passes over all the others without throwing. *)
Lemma updateDisplays_cap (p : Panel) (ts : gmap string TopicConfig)
  (ds : DisplaySettings) :
  topics (state p) = Some ts ->
  displaySettings (state p) = Some ds ->
  flag_truthy (rollEnabled ds) || flag_truthy (pitchEnabled ds)
    || flag_truthy (yawEnabled ds) = true ->
  exists d,
    updateDisplays p = ret d /\
    indexed d =
      number_from 0
        (take MAX_TOPICS
              (List.filter (enabled_in ts) (OMap.keys (orientations p)))) /\
    length (indexed d) <= MAX_TOPICS.
Proof.
  intros Hts Hds Hany. unfold updateDisplays.
  rewrite !(display_flag_present (state p) ds _ Hds), !bind_ret_l.
  cbn [get_display]. cbv zeta.
  assert (Hgo : negb (flag_truthy (rollEnabled ds))
                && negb (flag_truthy (pitchEnabled ds))
                && negb (flag_truthy (yawEnabled ds)) = false).
  { destruct (flag_truthy (rollEnabled ds)), (flag_truthy (pitchEnabled ds)),
      (flag_truthy (yawEnabled ds)); try reflexivity; discriminate Hany. }
  rewrite Hgo.
  destruct (draw_loop (state p) ts (flag_truthy (rollEnabled ds))
              (flag_truthy (pitchEnabled ds)) (flag_truthy (yawEnabled ds))
              (orientations p) (mkDisplays 0 [] [] [] []) Hts)
    as (d & Hrun & Hidx).
  exists d. split; [exact Hrun|]. cbn [indexed topicIndex app] in Hidx.
  rewrite Nat.sub_0_r in Hidx. split; [exact Hidx|].
  rewrite Hidx.
  assert (Hlen : forall n ks, length (number_from n ks) = length ks).
  { intros n ks. revert n. induction ks as [|k ks IHks]; intros n; simpl;
      [reflexivity | rewrite IHks; reflexivity]. }
  rewrite Hlen, length_take. lia.
Qed.

(** C1 (the code at a failing input).  Ten enabled sources with cached
    orientations: the display effect does not throw, gives the indices
    0 to 8 to the first nine sources in cache order and passes over the
    tenth, which stays cached.  The palette has eight entries only: the
    ninth indicator is drawn with no background color and with the class
    text "topic-indicator undefined", so eight sources, not nine, receive
    a color. *)
Theorem updateDisplays_ten_sources :
  exists d,
    updateDisplays (panel_showing ten_sources) = ret d /\
    indexed d = number_from 0 (take 9 ten_sources) /\
    OMap.get "/imu9" (orientations (panel_showing ten_sources))
      = Some zero_orientation /\
    length (rollDisplay d) = 9 /\
    map backgroundColor (rollDisplay d)
      = map Some CONFIG.messageColors ++ [None] /\
    rollDisplay d !! 8 =
      Some {| className := "topic-indicator undefined";
              backgroundColor := None;
              rotate_deg := Num.zero |} /\
    length (List.filter (fun i => bool_decide (is_Some (backgroundColor i)))
                        (rollDisplay d)) = 8.
Proof.
  eexists. split; [vm_compute; reflexivity|].
  repeat split; vm_compute; reflexivity.
Qed.

(** ** Update and render cycle *)

Lemma omap_get_cons {V} (k k' : string) (v : V) (m : OMap.t V) :
  OMap.get k ((k', v) :: m) = if String.eqb k k' then Some v else OMap.get k m.
Proof. reflexivity. Qed.

Lemma omap_has_keys {V} (k : string) (m : OMap.t V) :
  OMap.has k m = true <-> k ∈ OMap.keys m.
Proof. rewrite omap_has_get. apply omap_get_keys. Qed.

Lemma omap_get_set_is_Some {V} (k k' : string) (v : V) (m : OMap.t V) :
  is_Some (OMap.get k' m) -> is_Some (OMap.get k' (OMap.set k v m)).
Proof.
  intros H. destruct (decide (k = k')) as [->|Hne].
  - rewrite omap_get_set_eq. eauto.
  - rewrite omap_get_set_ne by assumption. exact H.
Qed.

Lemma omap_get_set_inv {V} (k k' : string) (v : V) (m : OMap.t V) :
  is_Some (OMap.get k' (OMap.set k v m)) ->
  k' = k \/ is_Some (OMap.get k' m).
Proof.
  intros H. destruct (decide (k = k')) as [->|Hne]; [left; reflexivity|].
  right. rewrite omap_get_set_ne in H by assumption. exact H.
Qed.

Lemma omap_get_delete_inv {V} (k k' : string) (m : OMap.t V) :
  is_Some (OMap.get k' (OMap.delete k m)) ->
  k' <> k /\ is_Some (OMap.get k' m).
Proof.
  intros H. destruct (decide (k = k')) as [->|Hne].
  - rewrite omap_get_delete_eq in H. destruct H; discriminate.
  - rewrite omap_get_delete_ne in H by assumption. split; [congruence|exact H].
Qed.

(** *** The loop of [onRender] *)

Lemma onRender_loop (state : PanelState) (ts : gmap string TopicConfig)
  (frame : list MessageEvent) (acc : OMap.t MessageEvent) :
  topics state = Some ts ->
  forEachM
    (fun newMessages msg =>
       let* cfg := topic_config state (topic msg) in
       if flag_truthy (opt_field cfg enabled)
       then ret (OMap.set (topic msg) msg newMessages)
       else ret newMessages)
    frame acc
  = ret (fold_left (keep_enabled ts) frame acc).
Proof.
  intros Hts. revert acc. induction frame as [|msg frame IH]; intros acc.
  - reflexivity.
  - cbn [forEachM fold_left].
    rewrite (topic_config_present state ts (topic msg) Hts), bind_ret_l.
    unfold keep_enabled at 2. unfold enabled_in.
    destruct (flag_truthy (opt_field (ts !! topic msg) enabled));
      rewrite bind_ret_l; apply IH.
Qed.

Lemma keep_enabled_fold (ts : gmap string TopicConfig)
  (frame : list MessageEvent) (acc : OMap.t MessageEvent) :
  (NoDup (OMap.keys acc) ->
   NoDup (OMap.keys (fold_left (keep_enabled ts) frame acc))) /\
  (forall k, is_Some (OMap.get k acc) ->
             is_Some (OMap.get k (fold_left (keep_enabled ts) frame acc))) /\
  (forall k, is_Some (OMap.get k (fold_left (keep_enabled ts) frame acc)) ->
             is_Some (OMap.get k acc) \/ enabled_in ts k = true).
Proof.
  revert acc. induction frame as [|msg frame IH]; intros acc; cbn [fold_left].
  - auto.
  - destruct (IH (keep_enabled ts acc msg)) as (Hnd & Hmono & Hinv).
    unfold keep_enabled in *.
    destruct (enabled_in ts (topic msg)) eqn:Hen.
    + split; [|split].
      * intros H. apply Hnd. apply omap_nodup_set. exact H.
      * intros k H. apply Hmono. apply omap_get_set_is_Some. exact H.
      * intros k H. apply Hinv in H as [H|H]; [|auto].
        apply omap_get_set_inv in H as [->|H]; auto.
    + auto.
Qed.

Section CycleFacts.

Variable Math_atan2 : Num.t -> Num.t -> Num.t.
Variable Math_asin : Num.t -> Num.t.
Variable StringToNumber : string -> Num.t.
Variable ArrayToNumber : list JsVal -> Num.t.

Local Abbreviation toEuler :=
  (quaternionToEuler Math_atan2 Math_asin StringToNumber ArrayToNumber).
Local Abbreviation process :=
  (process_message Math_atan2 Math_asin StringToNumber ArrayToNumber).
Local Abbreviation store :=
  (store_converted Math_atan2 Math_asin StringToNumber ArrayToNumber).
Local Abbreviation conv :=
  (converted Math_atan2 Math_asin StringToNumber ArrayToNumber).
Local Abbreviation run := (step Math_atan2 Math_asin StringToNumber ArrayToNumber).
Local Abbreviation reach :=
  (reachable Math_atan2 Math_asin StringToNumber ArrayToNumber).

(** *** The loop of [processMessages] never throws *)

Lemma process_message_returns (prev : OMap.t Orientation)
  (entry : string * MessageEvent) :
  returns (process prev entry) (store prev entry).
Proof.
  destruct entry as [k m]. unfold process_message, store_converted, converted.
  rewrite extractQuaternion_first_match, bind_ret_l. cbn [fst snd].
  destruct (truthy (extract_by shapes (message m))); cbn [negb].
  - destruct (quaternionToEuler_total Math_atan2 Math_asin StringToNumber
                ArrayToNumber (extract_by shapes (message m)))
      as (o & out & Ho).
    rewrite Ho. reflexivity.
  - reflexivity.
Qed.

Lemma processMessages_loop (l : OMap.t MessageEvent)
  (acc : OMap.t Orientation) :
  returns (forEachM process l acc) (fold_left store l acc).
Proof.
  revert acc. induction l as [|e l IH]; intros acc; cbn [forEachM fold_left].
  - reflexivity.
  - eapply returns_bind; [apply process_message_returns | apply IH].
Qed.

Lemma store_fold_other (l : OMap.t MessageEvent) (acc : OMap.t Orientation)
  (k : string) :
  OMap.get k l = None ->
  OMap.get k (fold_left store l acc) = OMap.get k acc.
Proof.
  revert acc. induction l as [|[k' m] l IH]; intros acc Hk; cbn [fold_left].
  - reflexivity.
  - rewrite omap_get_cons in Hk.
    destruct (String.eqb_spec k k') as [->|Hne]; [discriminate|].
    rewrite (IH _ Hk). unfold store_converted. cbn [fst snd].
    destruct (conv m); [|reflexivity].
    apply omap_get_set_ne. congruence.
Qed.

Lemma store_fold_keys (l : OMap.t MessageEvent) (acc : OMap.t Orientation)
  (k : string) :
  is_Some (OMap.get k (fold_left store l acc)) ->
  is_Some (OMap.get k acc) \/ is_Some (OMap.get k l).
Proof.
  destruct (OMap.get k l) eqn:Hk; [eauto|].
  rewrite (store_fold_other l acc k Hk). auto.
Qed.

(** With one entry per key, the entry of a source decides its cached
    orientation: the converted one, or the previous one when the message
    yields none. *)
Lemma store_fold_at (l : OMap.t MessageEvent) (acc : OMap.t Orientation)
  (k : string) (msg : MessageEvent) :
  NoDup (OMap.keys l) ->
  OMap.get k l = Some msg ->
  OMap.get k (fold_left store l acc) =
  match conv msg with
  | Some o => Some o
  | None => OMap.get k acc
  end.
Proof.
  revert acc. induction l as [|[k' m] l IH]; intros acc Hnd Hk.
  - discriminate Hk.
  - cbn [fold_left]. rewrite omap_get_cons in Hk.
    change (OMap.keys ((k', m) :: l)) with (k' :: OMap.keys l) in Hnd.
    apply NoDup_cons in Hnd as [Hnotin Hnd].
    destruct (String.eqb_spec k k') as [->|Hne].
    + injection Hk as ->.
      assert (Hnone : OMap.get k' l = None).
      { destruct (OMap.get k' l) eqn:E; [|reflexivity].
        exfalso. apply Hnotin. apply omap_get_keys. eauto. }
      rewrite (store_fold_other l _ k' Hnone).
      unfold store_converted. cbn [fst snd].
      destruct (conv msg); [apply omap_get_set_eq | reflexivity].
    + rewrite (IH _ Hnd Hk). destruct (conv msg); [reflexivity|].
      unfold store_converted. cbn [fst snd].
      destruct (conv m); [|reflexivity].
      apply omap_get_set_ne. congruence.
Qed.

(** *** One step, event by event *)

Lemma step_deliver (p : Panel) (ts : gmap string TopicConfig)
  (currentFrame : option (list MessageEvent)) (cat : option (list Topic)) :
  topics (state p) = Some ts ->
  returns (run p (Deliver currentFrame cat))
    match currentFrame with
    | Some ((_ :: _) as frame) =>
        let newMessages := fold_left (keep_enabled ts) frame (messages p) in
        {| state := state p;
           messages := newMessages;
           orientations := fold_left store newMessages (orientations p);
           catalog := cat;
           subscribed := subscribed p |}
    | _ =>
        {| state := state p;
           messages := messages p;
           orientations := orientations p;
           catalog := cat;
           subscribed := subscribed p |}
    end.
Proof.
  intros Hts. unfold step, onRender.
  destruct currentFrame as [[|m frame]|]; try reflexivity.
  cbv beta iota.
  rewrite (onRender_loop (state p) ts (m :: frame) (messages p) Hts).
  rewrite !bind_ret_l. unfold processMessages. cbn [messages orientations].
  eapply returns_bind; [apply processMessages_loop|]. reflexivity.
Qed.

Lemma step_set_topic_enabled (p : Panel) (ts : gmap string TopicConfig)
  (k : string) (e : bool) :
  topics (state p) = Some ts ->
  exists cfg' subs,
    enabled cfg' = Some e /\
    returns (run p (SetTopicEnabled k e))
      (let purge := negb e && OMap.has k (messages p) in
       let newMessages :=
         if purge then OMap.delete k (messages p) else messages p in
       {| state := {| topics := Some (<[k := cfg']> ts);
                      displaySettings := displaySettings (state p) |};
          messages := newMessages;
          orientations :=
            if purge
            then fold_left store newMessages (OMap.delete k (orientations p))
            else orientations p;
          catalog := catalog p;
          subscribed := subs |}).
Proof.
  intros Hts. unfold step, handleTopicEnabledChange.
  rewrite (updateTopicStatus_present (state p) ts k e Hts), bind_ret_l.
  unfold getEnabledTopics. cbn [topics]. rewrite bind_ret_l.
  eexists _, _. split; cycle 1.
  - cbv zeta. destruct (negb e && OMap.has k (messages p)).
    + rewrite bind_ret_l. unfold processMessages.
      cbn [messages orientations].
      eapply returns_bind; [apply processMessages_loop|]. reflexivity.
    + rewrite bind_ret_l. reflexivity.
  - reflexivity.
Qed.

Lemma step_set_display (p : Panel) (c : DisplayComponent) (e : bool) :
  returns (run p (SetDisplaySetting c e))
    (with_state p (updateDisplaySetting (state p) c e)).
Proof. reflexivity. Qed.

Lemma step_set_topic_component (p : Panel) (ts : gmap string TopicConfig)
  (k : string) (c : TopicComponent) (e : bool) :
  topics (state p) = Some ts ->
  returns (run p (SetTopicComponent k c e))
    (with_state p
       match own_or_inherited ts k with
       | None => state p
       | Some cfg =>
           {| topics := Some (<[k := set_flag c e cfg]> ts);
              displaySettings := displaySettings (state p) |}
       end).
Proof.
  intros Hts. unfold step.
  rewrite (updateTopicComponentStatus_present (state p) ts k c e Hts).
  rewrite bind_ret_l. reflexivity.
Qed.

(** No step throws as long as the topics mapping is present. *)
Lemma step_total (p : Panel) (ts : gmap string TopicConfig) (ev : Event) :
  topics (state p) = Some ts -> exists p', returns (run p ev) p'.
Proof.
  intros Hts. destruct ev.
  - eexists. apply (step_deliver p ts); exact Hts.
  - destruct (step_set_topic_enabled p ts topicName enabled' Hts)
      as (cfg' & subs & _ & H). eexists. exact H.
  - eexists. apply step_set_display.
  - eexists. apply (step_set_topic_component p ts); exact Hts.
Qed.

(** *** The caches hold enabled sources only *)

Lemma enabled_in_insert_eq (ts : gmap string TopicConfig) (k : string)
  (cfg : TopicConfig) :
  enabled_in (<[k := cfg]> ts) k = flag_truthy (enabled cfg).
Proof. unfold enabled_in. rewrite lookup_insert_eq. reflexivity. Qed.

Lemma enabled_in_insert_ne (ts : gmap string TopicConfig) (k k' : string)
  (cfg : TopicConfig) :
  k <> k' -> enabled_in (<[k := cfg]> ts) k' = enabled_in ts k'.
Proof.
  intros Hne. unfold enabled_in. rewrite lookup_insert_ne by assumption.
  reflexivity.
Qed.

Lemma initial_caches (savedState : option PanelState) :
  caches_enabled_only (initialPanel savedState).
Proof.
  eexists. split; [reflexivity|]. cbn [initialPanel messages orientations].
  split; [apply NoDup_nil_2|].
  split; intros k [x Hx]; discriminate Hx.
Qed.

Lemma step_preserves_caches (p p' : Panel) (ev : Event) :
  caches_enabled_only p -> returns (run p ev) p' -> caches_enabled_only p'.
Proof.
  intros (ts & Hts & Hnd & Hom & Hme) Hrun. destruct ev.
  - pose proof (step_deliver p ts currentFrame topics' Hts) as H.
    rewrite (returns_inj _ _ _ Hrun H). clear Hrun H.
    destruct currentFrame as [[|m frame]|];
      try (exists ts; repeat split; assumption).
    cbv zeta. exists ts. cbn [state messages orientations].
    destruct (keep_enabled_fold ts (m :: frame) (messages p))
      as (Hnd' & Hmono & Hinv).
    split; [exact Hts|]. split; [auto|]. split.
    + intros k Hk. apply store_fold_keys in Hk as [Hk|Hk]; auto.
    + intros k Hk. apply Hinv in Hk as [Hk|Hk]; auto.
  - destruct (step_set_topic_enabled p ts topicName enabled' Hts)
      as (cfg' & subs & Hen & H).
    rewrite (returns_inj _ _ _ Hrun H). clear Hrun H. cbv zeta.
    eexists. cbn [state messages orientations topics].
    split; [reflexivity|].
    destruct enabled'; cbn [negb andb].
    + split; [exact Hnd|]. split; [exact Hom|].
      intros k Hk. destruct (decide (topicName = k)) as [->|Hne].
      * rewrite enabled_in_insert_eq, Hen. reflexivity.
      * rewrite enabled_in_insert_ne by assumption. auto.
    + destruct (OMap.has topicName (messages p)) eqn:Hhas.
      * split; [apply omap_nodup_delete; exact Hnd|]. split.
        -- intros k Hk. apply store_fold_keys in Hk as [Hk|Hk]; [|exact Hk].
           apply omap_get_delete_inv in Hk as [Hne Hk].
           rewrite omap_get_delete_ne by congruence. auto.
        -- intros k Hk. apply omap_get_delete_inv in Hk as [Hne Hk].
           rewrite enabled_in_insert_ne by congruence. auto.
      * split; [exact Hnd|]. split; [exact Hom|].
        intros k Hk. destruct (decide (topicName = k)) as [->|Hne].
        -- apply omap_has_get in Hk. congruence.
        -- rewrite enabled_in_insert_ne by assumption. auto.
  - pose proof (step_set_display p component enabled') as H.
    rewrite (returns_inj _ _ _ Hrun H). exists ts. repeat split; assumption.
  - pose proof (step_set_topic_component p ts topicName component enabled' Hts)
      as H.
    rewrite (returns_inj _ _ _ Hrun H). clear Hrun H.
    destruct (own_or_inherited ts topicName) as [cfg|] eqn:Hcfg.
    + eexists. cbn [with_state state messages orientations topics].
      split; [reflexivity|]. split; [exact Hnd|]. split; [exact Hom|].
      intros k Hk. destruct (decide (topicName = k)) as [->|Hne].
      * rewrite enabled_in_insert_eq, set_flag_enabled.
        specialize (Hme k Hk). unfold enabled_in in Hme.
        rewrite <- (own_or_inherited_flag ts k enabled eq_refl) in Hme.
        rewrite Hcfg in Hme. exact Hme.
      * rewrite enabled_in_insert_ne by assumption. auto.
    + exists ts. repeat split; assumption.
Qed.

Lemma reachable_caches (p : Panel) : reach p -> caches_enabled_only p.
Proof.
  induction 1 as [savedState|p p' ev _ IH Hrun].
  - apply initial_caches.
  - exact (step_preserves_caches p p' ev IH Hrun).
Qed.

(** C4.  In every reachable state in which source A has a cached
    orientation, the disable step for A does not throw and leaves neither
    an orientation entry nor a message entry for A, with no further
    message needed; and in every reachable state every source with a
    cached orientation is enabled in the panel state. *)
Theorem disable_purges_orientation (p : Panel) (A : string) :
  reach p ->
  is_Some (OMap.get A (orientations p)) ->
  (exists p',
     returns (run p (SetTopicEnabled A false)) p' /\
     OMap.get A (orientations p') = None /\
     OMap.get A (messages p') = None) /\
  (forall q, reach q ->
     forall k, is_Some (OMap.get k (orientations q)) ->
       exists ts, topics (state q) = Some ts /\ enabled_in ts k = true).
Proof.
  intros Hreach Hcached. split.
  - destruct (reachable_caches p Hreach) as (ts & Hts & Hnd & Hom & Hme).
    destruct (step_set_topic_enabled p ts A false Hts)
      as (cfg' & subs & Hen & H).
    assert (Hhas : OMap.has A (messages p) = true)
      by (apply omap_has_get; auto).
    rewrite Hhas in H. cbn [negb andb] in H. cbv zeta in H.
    eexists. split; [exact H|]. cbn [orientations messages].
    split; [|apply omap_get_delete_eq].
    rewrite store_fold_other by apply omap_get_delete_eq.
    apply omap_get_delete_eq.
  - intros q Hq k Hk.
    destruct (reachable_caches q Hq) as (ts & Hts & Hnd & Hom & Hme).
    exists ts. split; [exact Hts|]. auto.
Qed.


(** *** Nothing throws in a reachable state *)

Lemma reachable_displaySettings (p : Panel) :
  reach p -> exists ds, displaySettings (state p) = Some ds.
Proof.
  induction 1 as [savedState|p p' ev Hp IH Hrun].
  - cbn [initialPanel state initialPanelState displaySettings].
    destruct (opt_field savedState displaySettings); eauto.
  - destruct IH as [ds Hds].
    destruct (reachable_caches p Hp) as (ts & Hts & _).
    destruct ev.
    + pose proof (step_deliver p ts currentFrame topics' Hts) as H.
      rewrite (returns_inj _ _ _ Hrun H).
      destruct currentFrame as [[|m frame]|]; exists ds; exact Hds.
    + destruct (step_set_topic_enabled p ts topicName enabled' Hts)
        as (cfg' & subs & _ & H).
      rewrite (returns_inj _ _ _ Hrun H). exists ds. exact Hds.
    + pose proof (step_set_display p component enabled') as H.
      rewrite (returns_inj _ _ _ Hrun H). eexists. reflexivity.
    + pose proof (step_set_topic_component p ts topicName component
                    enabled' Hts) as H.
      rewrite (returns_inj _ _ _ Hrun H).
      destruct (own_or_inherited ts topicName); exists ds; exact Hds.
Qed.

(** In every reachable state the settings effect, the display effect and
    every handler return: no delivery, edit or refresh is fatal, and the
    display effect indexes at most [MAX_TOPICS] sources. *)
Lemma reachable_never_throws (p : Panel) :
  reach p ->
  (exists tree, buildSettingsTree (state p) (orientationTopics p) = ret tree)
  /\
  (exists d, updateDisplays p = ret d /\ length (indexed d) <= MAX_TOPICS) /\
  (forall ev, exists p', returns (run p ev) p').
Proof.
  intros Hp.
  destruct (reachable_caches p Hp) as (ts & Hts & _).
  destruct (reachable_displaySettings p Hp) as [ds Hds].
  split; [|split].
  - destruct (buildSettingsTree_present (state p) ts ds (orientationTopics p)
                Hts Hds) as (general & H & _).
    eexists. exact H.
  - destruct (flag_truthy (rollEnabled ds) || flag_truthy (pitchEnabled ds)
              || flag_truthy (yawEnabled ds)) eqn:Hany.
    + destruct (updateDisplays_cap p ts ds Hts Hds Hany) as (d & H & _ & Hlen).
      exists d. auto.
    + unfold updateDisplays.
      rewrite !(display_flag_present (state p) ds _ Hds), !bind_ret_l.
      cbn [get_display]. cbv zeta.
      destruct (flag_truthy (rollEnabled ds)),
        (flag_truthy (pitchEnabled ds)), (flag_truthy (yawEnabled ds));
        try discriminate Hany.
      eexists. split; [reflexivity|]. cbn. unfold MAX_TOPICS. lia.
  - intros ev. exact (step_total p ts ev Hts).
Qed.

End CycleFacts.

(** ** Closed instances *)

Lemma example_after_reachable (events : list Event) :
  reachable Example.atan2 Example.asin Example.string_to_number
    Example.array_to_number (Example.after events).
Proof.
  unfold Example.after.
  generalize (reachable_init Example.atan2 Example.asin
                Example.string_to_number Example.array_to_number None).
  generalize (initialPanel None).
  induction events as [|ev events IH]; intros p Hp; cbn [fold_left].
  - exact Hp.
  - apply IH. destruct (fst (Example.run p ev)) as [p'|e] eqn:E.
    + exact (reachable_step _ _ _ _ p p' ev Hp E).
    + exact Hp.
Qed.

(** The ten-source panel of [updateDisplays_ten_sources] is a state of
    the running panel: ten sources are enabled and one frame brings a
    message of each. *)
Lemma ten_sources_reachable :
  let p := Example.after (Example.enable_and_feed_all ten_sources) in
  reachable Example.atan2 Example.asin Example.string_to_number
    Example.array_to_number p /\
  state p = state (panel_showing ten_sources) /\
  messages p = messages (panel_showing ten_sources) /\
  orientations p = orientations (panel_showing ten_sources).
Proof.
  cbv zeta. split; [apply example_after_reachable|].
  repeat split; vm_compute; reflexivity.
Qed.


Lemma quaternionToEuler_guard_witness :
  is_number (prop (JObj []) k_w) = false /\
  quaternionToEuler Example.atan2 Example.asin Example.string_to_number
    Example.array_to_number (JObj [])
  = (Ok zero_orientation, [Warn "Invalid quaternion:" (JObj [])]).
Proof.
  split; [reflexivity|].
  apply (quaternionToEuler_guard Example.atan2 Example.asin
           Example.string_to_number Example.array_to_number (JObj [])).
  reflexivity.
Defined.

Lemma updateTopicComponentStatus_cases_witness :
  topics Example.imu_state = Some {[ "/imu" := all_shown ]} /\
  (exists ts' cfg',
     updateTopicComponentStatus Example.imu_state "/imu" ShowYaw false =
       ret {| topics := Some ts';
              displaySettings := displaySettings Example.imu_state |} /\
     ts' !! "/imu" = Some cfg' /\
     get_flag ShowYaw cfg' = Some false /\
     enabled cfg' = enabled all_shown) /\
  updateTopicComponentStatus Example.imu_state "/gps" ShowYaw false
    = ret Example.imu_state /\
  (exists ts' cfg',
     updateTopicComponentStatus Example.imu_state "constructor" ShowYaw false =
       ret {| topics := Some ts';
              displaySettings := displaySettings Example.imu_state |} /\
     {| topics := Some ts';
        displaySettings := displaySettings Example.imu_state |}
       <> Example.imu_state /\
     ts' !! "constructor" = Some cfg' /\
     get_flag ShowYaw cfg' = Some false /\
     enabled cfg' = None).
Proof.
  split; [reflexivity|].
  destruct (updateTopicComponentStatus_cases Example.imu_state
              {[ "/imu" := all_shown ]} "/imu" ShowYaw false eq_refl)
    as [Hown _].
  destruct (updateTopicComponentStatus_cases Example.imu_state
              {[ "/imu" := all_shown ]} "/gps" ShowYaw false eq_refl)
    as (_ & Hnone & _).
  destruct (updateTopicComponentStatus_cases Example.imu_state
              {[ "/imu" := all_shown ]} "constructor" ShowYaw false eq_refl)
    as (_ & _ & Hinh).
  split; [|split].
  - destruct (Hown all_shown) as (ts' & cfg' & H1 & H2 & H3 & H4 & _);
      [vm_compute; reflexivity|].
    exists ts', cfg'. auto.
  - apply Hnone; vm_compute; reflexivity.
  - destruct Hinh as (ts' & cfg' & H1 & H2 & H3 & H4 & H5 & _);
      [vm_compute; reflexivity|vm_compute; reflexivity|].
    exists ts', cfg'. auto.
Defined.

Lemma updateTopicStatus_upsert_witness :
  topics Example.imu_state = Some {[ "/imu" := all_shown ]} /\
  exists ts' cfg',
    updateTopicStatus Example.imu_state "/imu" false =
      ret {| topics := Some ts';
             displaySettings := displaySettings Example.imu_state |} /\
    ts' !! "/imu" = Some cfg' /\
    enabled cfg' = Some false.
Proof.
  split; [reflexivity|].
  destruct (updateTopicStatus_upsert Example.imu_state
              {[ "/imu" := all_shown ]} "/imu" false eq_refl)
    as (ts' & cfg' & H1 & H2 & H3 & _).
  exists ts', cfg'. auto.
Defined.

Lemma initialPanelState_shallow_merge_witness :
  (forall d, opt_field (Some getInitialState) displaySettings = Some d ->
             display_complete d) /\
  initialPanelState (Some getInitialState)
    = deepMergedState (Some getInitialState).
Proof.
  assert (H : forall d,
             opt_field (Some getInitialState) displaySettings = Some d ->
             display_complete d).
  { intros d [= <-]. repeat split; eexists; reflexivity. }
  split; [exact H|].
  destruct (initialPanelState_shallow_merge (Some getInitialState))
    as (_ & _ & Hdeep).
  destruct (Hdeep H) as [Heq _]. exact Heq.
Defined.

Lemma buildSettingsTree_total_witness :
  topics Example.imu_state = Some {[ "/imu" := all_shown ]} /\
  displaySettings Example.imu_state = displaySettings getInitialState /\
  exists general nodes,
    buildSettingsTree Example.imu_state
      [{| name := "/imu"; schemaName := "sensor_msgs/Imu" |}] =
      ret [("general", general);
           ("topics", {| node_label := "Topics";
                         node_defaultExpansionState := None;
                         node_visible := None;
                         node_fields := None;
                         node_children := Some nodes |})].
Proof.
  split; [reflexivity|]. split; [reflexivity|].
  destruct (buildSettingsTree_total Example.imu_state
              {[ "/imu" := all_shown ]}
              {| rollEnabled := Some true; pitchEnabled := Some true;
                 yawEnabled := Some true |}
              [{| name := "/imu"; schemaName := "sensor_msgs/Imu" |}]
              eq_refl eq_refl)
    as (general & nodes & H & _).
  exists general, nodes. exact H.
Defined.

Lemma disable_purges_orientation_witness :
  is_Some (OMap.get "/imu"
             (orientations (Example.after Example.enable_and_feed))) /\
  exists p',
    returns (Example.run (Example.after Example.enable_and_feed)
               (SetTopicEnabled "/imu" false)) p' /\
    OMap.get "/imu" (orientations p') = None /\
    OMap.get "/imu" (messages p') = None.
Proof.
  assert (H : is_Some (OMap.get "/imu"
                (orientations (Example.after Example.enable_and_feed))))
    by (vm_compute; eexists; reflexivity).
  split; [exact H|].
  destruct (disable_purges_orientation Example.atan2 Example.asin
              Example.string_to_number Example.array_to_number
              (Example.after Example.enable_and_feed) "/imu"
              (example_after_reachable Example.enable_and_feed) H)
    as [Hpurge _].
  exact Hpurge.
Defined.


(** * Further properties of the code *)

(** ** Extractor and converter *)

(** X1.  Whatever the message, the extractor returns either [undefined]
    or a truthy value: the caller's test [!quaternion] skips a message
    exactly when nothing was found in it. *)
Theorem extractQuaternion_undefined_or_truthy (message : JsVal) :
  exists q,
    extractQuaternion message = ret q /\
    (q = JUndefined \/ truthy q = true).
Proof.
  exists (extract_by shapes message).
  split; [apply extractQuaternion_first_match|].
  unfold extract_by. destruct (is_object message) eqn:Hobj; [|auto].
  unfold first_match, shapes, nested_shapes. cbn [List.find].
  destruct (shape_matches bare_shape message).
  { right. cbn [shape_value bare_shape].
    destruct message; try discriminate Hobj; reflexivity. }
  repeat match goal with
  | |- context [if shape_matches (field_shape ?path) ?m then _ else _] =>
      let E := fresh "E" in
      destruct (shape_matches (field_shape path) m) eqn:E;
      [right; exact E|]
  end.
  left. reflexivity.
Qed.

Section ConverterFacts.

Variable Math_atan2 : Num.t -> Num.t -> Num.t.
Variable Math_asin : Num.t -> Num.t.
Variable StringToNumber : string -> Num.t.
Variable ArrayToNumber : list JsVal -> Num.t.

Local Abbreviation toEuler :=
  (quaternionToEuler Math_atan2 Math_asin StringToNumber ArrayToNumber).


End ConverterFacts.

(** ** Update cycle: batches, coherence, order *)

Lemma omap_set_same {V} (k : string) (v : V) (m : OMap.t V) :
  OMap.get k m = Some v -> OMap.set k v m = m.
Proof.
  induction m as [|[k' v'] m IH]; [discriminate|].
  rewrite omap_get_cons. cbn [OMap.set].
  destruct (String.eqb_spec k k') as [->|Hne].
  - intros [= ->]. reflexivity.
  - intros H. rewrite (IH H). reflexivity.
Qed.

Lemma omap_get_elem {V} (k : string) (v : V) (m : OMap.t V) :
  NoDup (OMap.keys m) -> (k, v) ∈ m -> OMap.get k m = Some v.
Proof.
  induction m as [|[k' v'] m IH]; intros Hnd Hin; [inversion Hin|].
  change (OMap.keys ((k', v') :: m)) with (k' :: OMap.keys m) in Hnd.
  apply NoDup_cons in Hnd as [Hnotin Hnd].
  rewrite omap_get_cons. apply elem_of_cons in Hin as [[= -> ->]|Hin].
  - rewrite String.eqb_refl. reflexivity.
  - destruct (String.eqb_spec k k') as [->|Hne]; [|auto].
    exfalso. apply Hnotin. unfold OMap.keys.
    apply list_elem_of_fmap. exists (k', v). auto.
Qed.


Section CycleExtras.

Variable Math_atan2 : Num.t -> Num.t -> Num.t.
Variable Math_asin : Num.t -> Num.t.
Variable StringToNumber : string -> Num.t.
Variable ArrayToNumber : list JsVal -> Num.t.

Local Abbreviation toEuler :=
  (quaternionToEuler Math_atan2 Math_asin StringToNumber ArrayToNumber).
Local Abbreviation toNumber := (ToNumber StringToNumber ArrayToNumber).
Local Abbreviation store :=
  (store_converted Math_atan2 Math_asin StringToNumber ArrayToNumber).
Local Abbreviation conv :=
  (converted Math_atan2 Math_asin StringToNumber ArrayToNumber).
Local Abbreviation run := (step Math_atan2 Math_asin StringToNumber ArrayToNumber).
Local Abbreviation reach :=
  (reachable Math_atan2 Math_asin StringToNumber ArrayToNumber).




(** *** The orientation cache follows the message cache *)

Lemma store_fold_nodup (l : OMap.t MessageEvent) (acc : OMap.t Orientation) :
  NoDup (OMap.keys acc) -> NoDup (OMap.keys (fold_left store l acc)).
Proof.
  revert acc. induction l as [|[k m] l IH]; intros acc Hnd; cbn [fold_left].
  - exact Hnd.
  - apply IH. unfold store_converted. cbn [fst snd].
    destruct (conv m); [apply omap_nodup_set|]; exact Hnd.
Qed.

Lemma store_fold_coherent (l : OMap.t MessageEvent)
  (acc : OMap.t Orientation) :
  NoDup (OMap.keys l) -> NoDup (OMap.keys acc) ->
  NoDup (OMap.keys (fold_left store l acc)) /\
  forall k msg o,
    OMap.get k l = Some msg -> conv msg = Some o ->
    OMap.get k (fold_left store l acc) = Some o.
Proof.
  intros Hl Hacc. split; [apply store_fold_nodup; exact Hacc|].
  intros k msg o Hk Ho. rewrite (store_fold_at _ _ _ _ l acc k msg Hl Hk).
  rewrite Ho. reflexivity.
Qed.

Lemma reachable_coherent (p : Panel) :
  reach p ->
  coherent Math_atan2 Math_asin StringToNumber ArrayToNumber p.
Proof.
  induction 1 as [savedState|p p' ev Hp IH Hrun].
  - split; [apply NoDup_nil_2|]. split; [apply NoDup_nil_2|].
    intros k msg o H. discriminate H.
  - destruct IH as (Hm & Ho & Hco).
    destruct (reachable_caches _ _ _ _ p Hp) as (ts & Hts & _).
    destruct ev.
    + pose proof (step_deliver Math_atan2 Math_asin StringToNumber
                    ArrayToNumber p ts currentFrame topics' Hts) as H.
      rewrite (returns_inj _ _ _ Hrun H). clear Hrun H.
      destruct currentFrame as [[|m frame]|];
        try (repeat split; assumption).
      cbv zeta. unfold coherent. cbn [messages orientations].
      assert (Hm' : NoDup (OMap.keys
                (fold_left (keep_enabled ts) (m :: frame) (messages p))))
        by (apply (keep_enabled_fold ts (m :: frame) (messages p)); exact Hm).
      split; [exact Hm'|]. apply store_fold_coherent; assumption.
    + destruct (step_set_topic_enabled Math_atan2 Math_asin StringToNumber
                  ArrayToNumber p ts topicName enabled' Hts)
        as (cfg' & subs & _ & H).
      rewrite (returns_inj _ _ _ Hrun H). clear Hrun H. cbv zeta.
      unfold coherent. cbn [messages orientations].
      destruct (negb enabled' && OMap.has topicName (messages p)).
      * assert (Hm' : NoDup (OMap.keys (OMap.delete topicName (messages p))))
          by (apply omap_nodup_delete; exact Hm).
        split; [exact Hm'|]. apply store_fold_coherent; [exact Hm'|].
        apply omap_nodup_delete. exact Ho.
      * repeat split; assumption.
    + pose proof (step_set_display Math_atan2 Math_asin StringToNumber
                    ArrayToNumber p component enabled') as H.
      rewrite (returns_inj _ _ _ Hrun H). repeat split; assumption.
    + pose proof (step_set_topic_component Math_atan2 Math_asin StringToNumber
                    ArrayToNumber p ts topicName component enabled' Hts) as H.
      rewrite (returns_inj _ _ _ Hrun H). repeat split; assumption.
Qed.

(** X5.  In every reachable state the orientation cached for a source
    is the conversion of the message cached for it, whenever that message
    holds a quaternion; and each cache has one entry per source. *)
Theorem orientation_follows_message (p : Panel) (k : string)
  (msg : MessageEvent) (o : Orientation) :
  reach p ->
  OMap.get k (messages p) = Some msg ->
  conv msg = Some o ->
  OMap.get k (orientations p) = Some o /\
  NoDup (OMap.keys (messages p)) /\
  NoDup (OMap.keys (orientations p)).
Proof.
  intros Hreach Hk Ho.
  destruct (reachable_coherent p Hreach) as (Hm & Hor & Hco).
  split; [exact (Hco k msg o Hk Ho)|]. split; assumption.
Qed.

Lemma store_fold_fixpoint (l : OMap.t MessageEvent)
  (acc : OMap.t Orientation) :
  (forall k msg o, (k, msg) ∈ l -> conv msg = Some o ->
                   OMap.get k acc = Some o) ->
  fold_left store l acc = acc.
Proof.
  induction l as [|[k m] l IH]; intros H; cbn [fold_left]; [reflexivity|].
  assert (Hs : store acc (k, m) = acc).
  { unfold store_converted. cbn [fst snd].
    destruct (conv m) as [o|] eqn:Ho; [|reflexivity].
    apply omap_set_same. apply (H k m o); [left|exact Ho]. }
  rewrite Hs. apply IH. intros k' msg o Hin. apply H. right. exact Hin.
Qed.

Lemma processMessages_fixpoint (p : Panel) :
  coherent Math_atan2 Math_asin StringToNumber ArrayToNumber p ->
  returns (processMessages Math_atan2 Math_asin StringToNumber ArrayToNumber p)
          p.
Proof.
  intros (Hm & Ho & Hco). unfold processMessages.
  eapply returns_bind; [apply processMessages_loop|].
  rewrite store_fold_fixpoint.
  - destruct p; reflexivity.
  - intros k msg o Hin. apply Hco. apply omap_get_elem; assumption.
Qed.

(** X6.  In every reachable state the message effect has nothing left to
    do: running it again returns the same panel, so a re-run by React
    changes no cached orientation. *)
Theorem processMessages_idle (p : Panel) :
  reach p ->
  returns (processMessages Math_atan2 Math_asin StringToNumber ArrayToNumber p)
          p.
Proof.
  intros Hreach. apply processMessages_fixpoint.
  apply reachable_coherent. exact Hreach.
Qed.

End CycleExtras.

(** ** Subscriptions *)

Lemma nodup_fst_filter {A B} (f : A * B -> bool) (l : list (A * B)) :
  NoDup (map fst l) -> NoDup (map fst (List.filter f l)).
Proof.
  induction l as [|a l IH]; simpl; intros Hnd; [exact Hnd|].
  apply NoDup_cons in Hnd as [Hnotin Hnd].
  destruct (f a); simpl; [|auto].
  apply NoDup_cons. split; [|auto].
  intros Hin. apply Hnotin.
  apply list_elem_of_fmap in Hin as (x & Hx & Hin).
  apply list_elem_of_fmap. exists x. split; [exact Hx|].
  apply list_elem_of_In in Hin. apply filter_In in Hin as [Hin _].
  apply list_elem_of_In. exact Hin.
Qed.

Lemma getEnabledTopics_present (state : PanelState)
  (ts : gmap string TopicConfig) :
  topics state = Some ts ->
  exists l,
    getEnabledTopics state = ret l /\
    NoDup l /\
    forall k, k ∈ l <-> enabled_in ts k = true.
Proof.
  intros Hts. unfold getEnabledTopics. rewrite Hts.
  eexists. split; [reflexivity|]. split.
  - apply nodup_fst_filter. apply NoDup_fst_map_to_list.
  - intros k. unfold enabled_in. split.
    + intros Hin. apply list_elem_of_fmap in Hin as ([k' cfg] & -> & Hin).
      apply list_elem_of_In in Hin. apply filter_In in Hin as [Hin Hen].
      apply list_elem_of_In in Hin. apply elem_of_map_to_list in Hin.
      cbn [fst snd] in *. rewrite Hin. exact Hen.
    + intros Hen. destruct (ts !! k) as [cfg|] eqn:Hcfg; [|discriminate Hen].
      apply list_elem_of_fmap. exists (k, cfg). split; [reflexivity|].
      apply list_elem_of_In. apply filter_In. split; [|exact Hen].
      apply list_elem_of_In. apply elem_of_map_to_list. exact Hcfg.
Qed.

(** X7.  [getEnabledTopics] lists each source once, and lists exactly the
    sources whose config has a truthy [enabled] flag; without a topics
    mapping it throws. *)
Theorem getEnabledTopics_lists_enabled (state : PanelState) :
  match topics state with
  | Some ts =>
      exists l,
        getEnabledTopics state = ret l /\
        NoDup l /\
        forall k, k ∈ l <->
          exists cfg, ts !! k = Some cfg /\ flag_truthy (enabled cfg) = true
  | None => raises (getEnabledTopics state)
  end.
Proof.
  destruct (topics state) as [ts|] eqn:Hts.
  - destruct (getEnabledTopics_present state ts Hts) as (l & Hrun & Hnd & Hin).
    exists l. split; [exact Hrun|]. split; [exact Hnd|].
    intros k. rewrite Hin. unfold enabled_in. split.
    + destruct (ts !! k) as [cfg|]; [eauto | discriminate].
    + intros (cfg & -> & Hen). exact Hen.
  - unfold getEnabledTopics, raises. rewrite Hts. eexists. reflexivity.
Qed.

Section ToggleFacts.

Variable Math_atan2 : Num.t -> Num.t -> Num.t.
Variable Math_asin : Num.t -> Num.t.
Variable StringToNumber : string -> Num.t.
Variable ArrayToNumber : list JsVal -> Num.t.

Local Abbreviation store :=
  (store_converted Math_atan2 Math_asin StringToNumber ArrayToNumber).
Local Abbreviation conv :=
  (converted Math_atan2 Math_asin StringToNumber ArrayToNumber).
Local Abbreviation run := (step Math_atan2 Math_asin StringToNumber ArrayToNumber).
Local Abbreviation reach :=
  (reachable Math_atan2 Math_asin StringToNumber ArrayToNumber).

(** The state and the subscription after a toggle. *)
Lemma step_set_topic_enabled_state (p : Panel) (ts : gmap string TopicConfig)
  (A : string) (e : bool) :
  topics (state p) = Some ts ->
  exists p' cfg',
    returns (run p (SetTopicEnabled A e)) p' /\
    state p' = {| topics := Some (<[A := cfg']> ts);
                  displaySettings := displaySettings (state p) |} /\
    enabled cfg' = Some e /\
    getEnabledTopics (state p') = ret (subscribed p').
Proof.
  intros Hts. unfold step, handleTopicEnabledChange.
  rewrite (updateTopicStatus_present (state p) ts A e Hts), bind_ret_l.
  unfold getEnabledTopics at 1. cbn [topics]. rewrite bind_ret_l.
  destruct (negb e && OMap.has A (messages p)).
  - rewrite bind_ret_l. unfold processMessages.
    cbn [messages orientations state catalog subscribed].
    eexists _, _. split.
    { eapply returns_bind; [apply processMessages_loop|]. reflexivity. }
    cbn [state subscribed]. split; [reflexivity|]. split; reflexivity.
  - rewrite bind_ret_l. eexists _, _. split; [reflexivity|].
    cbn [state subscribed]. split; [reflexivity|]. split; reflexivity.
Qed.

(** X8.  After a toggle the panel is subscribed to exactly the enabled
    sources: the toggled source is subscribed when and only when it was
    switched on, and every other source when and only when it was
    enabled before. *)
Theorem subscription_follows_toggle (p : Panel) (ts : gmap string TopicConfig)
  (A : string) (e : bool) :
  topics (state p) = Some ts ->
  exists p',
    returns (run p (SetTopicEnabled A e)) p' /\
    NoDup (subscribed p') /\
    (A ∈ subscribed p' <-> e = true) /\
    (forall B, B <> A -> (B ∈ subscribed p' <-> enabled_in ts B = true)).
Proof.
  intros Hts.
  destruct (step_set_topic_enabled_state p ts A e Hts)
    as (p' & cfg' & Hrun & Hstate & Hen & Hsub).
  exists p'. split; [exact Hrun|].
  assert (Hts' : topics (state p') = Some (<[A := cfg']> ts))
    by (rewrite Hstate; reflexivity).
  destruct (getEnabledTopics_present (state p') _ Hts')
    as (l & Hl & Hnd & Hin).
  rewrite Hsub in Hl. injection Hl as <-.
  split; [exact Hnd|]. split.
  - rewrite Hin, enabled_in_insert_eq, Hen. destruct e; simpl; tauto.
  - intros B HB. rewrite Hin, enabled_in_insert_ne by congruence. tauto.
Qed.

(** X9.  A toggle of one source leaves the cached message and the cached
    orientation of every other source as they were; switching a source
    on changes no cache at all. *)
Theorem toggle_leaves_other_sources (p : Panel) (A B : string) (e : bool) :
  reach p ->
  A <> B ->
  exists p',
    returns (run p (SetTopicEnabled A e)) p' /\
    OMap.get B (messages p') = OMap.get B (messages p) /\
    OMap.get B (orientations p') = OMap.get B (orientations p) /\
    (e = true ->
     messages p' = messages p /\ orientations p' = orientations p).
Proof.
  intros Hreach Hne.
  destruct (reachable_caches _ _ _ _ p Hreach) as (ts & Hts & _).
  destruct (reachable_coherent _ _ _ _ p Hreach) as (Hm & Ho & Hco).
  destruct (step_set_topic_enabled Math_atan2 Math_asin StringToNumber
              ArrayToNumber p ts A e Hts) as (cfg' & subs & _ & H).
  cbv zeta in H. eexists. split; [exact H|]. cbn [messages orientations].
  destruct e; cbn [negb andb]; [auto|].
  destruct (OMap.has A (messages p)).
  - split; [apply omap_get_delete_ne; exact Hne|].
    split; [|intros Hfalse; discriminate Hfalse].
    destruct (OMap.get B (messages p)) as [msg|] eqn:HB.
    + rewrite (store_fold_at _ _ _ _ _ _ B msg).
      * rewrite omap_get_delete_ne by exact Hne.
        destruct (conv msg) as [o|] eqn:Hc; [|reflexivity].
        symmetry. exact (Hco B msg o HB Hc).
      * apply omap_nodup_delete. exact Hm.
      * rewrite omap_get_delete_ne by exact Hne. exact HB.
    + rewrite store_fold_other
        by (rewrite omap_get_delete_ne by exact Hne; exact HB).
      apply omap_get_delete_ne. exact Hne.
  - split; [reflexivity|]. split; [reflexivity|].
    intros Hfalse; discriminate Hfalse.
Qed.

(** *** Cache order and display indices *)

Lemma store_fold_keys_prefix (l : OMap.t MessageEvent)
  (acc : OMap.t Orientation) :
  OMap.keys acc `prefix_of` OMap.keys (fold_left store l acc).
Proof.
  revert acc. induction l as [|[k m] l IH]; intros acc; cbn [fold_left].
  - reflexivity.
  - etransitivity; [|apply IH]. unfold store_converted. cbn [fst snd].
    destruct (conv m); [|reflexivity].
    rewrite omap_keys_set. destruct (OMap.has k acc); [reflexivity|].
    apply prefix_app_r. reflexivity.
Qed.

Lemma number_from_app (n : nat) (a b : list string) :
  number_from n (a ++ b) = number_from n a ++ number_from (n + length a) b.
Proof.
  revert n. induction a as [|k a IH]; intros n; simpl.
  - rewrite Nat.add_0_r. reflexivity.
  - rewrite IH. replace (S n + length a) with (n + S (length a)) by lia.
    reflexivity.
Qed.

Lemma indexed_prefix (ts : gmap string TopicConfig) (ks ks' : list string) :
  ks `prefix_of` ks' ->
  number_from 0 (take MAX_TOPICS (List.filter (enabled_in ts) ks))
  `prefix_of`
  number_from 0 (take MAX_TOPICS (List.filter (enabled_in ts) ks')).
Proof.
  intros [ex ->]. rewrite List.filter_app, take_app, number_from_app.
  apply prefix_app_r. reflexivity.
Qed.

Lemma updateDisplays_indexed (p : Panel) (ts : gmap string TopicConfig)
  (ds : DisplaySettings) (d : Displays) :
  topics (state p) = Some ts ->
  displaySettings (state p) = Some ds ->
  updateDisplays p = ret d ->
  indexed d =
  if flag_truthy (rollEnabled ds) || flag_truthy (pitchEnabled ds)
     || flag_truthy (yawEnabled ds)
  then number_from 0
         (take MAX_TOPICS
               (List.filter (enabled_in ts) (OMap.keys (orientations p))))
  else [].
Proof.
  intros Hts Hds Hd.
  destruct (flag_truthy (rollEnabled ds) || flag_truthy (pitchEnabled ds)
            || flag_truthy (yawEnabled ds)) eqn:Hany.
  - destruct (updateDisplays_cap p ts ds Hts Hds Hany) as (d0 & H0 & Hidx & _).
    rewrite H0 in Hd. injection Hd as <-. exact Hidx.
  - unfold updateDisplays in Hd.
    rewrite !(display_flag_present (state p) ds _ Hds), !bind_ret_l in Hd.
    cbn [get_display] in Hd. cbv zeta in Hd.
    destruct (flag_truthy (rollEnabled ds)),
      (flag_truthy (pitchEnabled ds)), (flag_truthy (yawEnabled ds));
      try discriminate Hany.
    cbn [negb andb] in Hd. injection Hd as <-. reflexivity.
Qed.

(** X10.  A delivery keeps the order of the orientation cache: the
    sources cached before keep their places and new sources come after
    them; so the sources drawn before the delivery keep their display
    index, hence their color, after it. *)
Theorem delivery_keeps_display_index (p p' : Panel)
  (currentFrame : option (list MessageEvent)) (cat : option (list Topic))
  (d d' : Displays) :
  reach p ->
  returns (run p (Deliver currentFrame cat)) p' ->
  updateDisplays p = ret d ->
  updateDisplays p' = ret d' ->
  OMap.keys (orientations p) `prefix_of` OMap.keys (orientations p') /\
  indexed d `prefix_of` indexed d'.
Proof.
  intros Hreach Hrun Hd Hd'.
  destruct (reachable_caches _ _ _ _ p Hreach) as (ts & Hts & _).
  destruct (reachable_displaySettings _ _ _ _ p Hreach) as [ds Hds].
  pose proof (step_deliver Math_atan2 Math_asin StringToNumber ArrayToNumber
                p ts currentFrame cat Hts) as H.
  rewrite (returns_inj _ _ _ Hrun H) in *. clear Hrun H.
  assert (Hkeys : OMap.keys (orientations p) `prefix_of`
            OMap.keys (orientations
              match currentFrame with
              | Some ((_ :: _) as frame) =>
                  let newMessages :=
                    fold_left (keep_enabled ts) frame (messages p) in
                  {| state := state p; messages := newMessages;
                     orientations :=
                       fold_left store newMessages (orientations p);
                     catalog := cat; subscribed := subscribed p |}
              | _ =>
                  {| state := state p; messages := messages p;
                     orientations := orientations p;
                     catalog := cat; subscribed := subscribed p |}
              end)).
  { destruct currentFrame as [[|m frame]|]; cbn [orientations];
      try reflexivity.
    apply store_fold_keys_prefix. }
  split; [exact Hkeys|].
  rewrite (updateDisplays_indexed p ts ds d Hts Hds Hd).
  erewrite (updateDisplays_indexed _ ts ds d' _ _ Hd').
  destruct (flag_truthy (rollEnabled ds) || flag_truthy (pitchEnabled ds)
            || flag_truthy (yawEnabled ds)); [|reflexivity].
  apply indexed_prefix. exact Hkeys.
  Unshelve.
  - destruct currentFrame as [[|m frame]|]; exact Hts.
  - destruct currentFrame as [[|m frame]|]; exact Hds.
Qed.

End ToggleFacts.

(** ** Reducers: how the updates compose *)

Lemma updateTopicStatus_record (ts : gmap string TopicConfig)
  (d : option DisplaySettings) (topicName : string) (e : bool) :
  updateTopicStatus {| topics := Some ts; displaySettings := d |} topicName e =
  ret {| topics :=
           Some (<[topicName :=
                    {| enabled := Some e;
                       showRoll :=
                         Some (default true (opt_field (ts !! topicName) showRoll));
                       showPitch :=
                         Some (default true (opt_field (ts !! topicName) showPitch));
                       showYaw :=
                         Some (default true (opt_field (ts !! topicName) showYaw))
                    |}]> ts);
         displaySettings := d |}.
Proof.
  apply (updateTopicStatus_present
           {| topics := Some ts; displaySettings := d |} ts topicName e).
  reflexivity.
Qed.

(** X11.  Switching a source off and on again (or on and off again)
    gives back the very state one started from, when the source has a
    config with its [enabled] flag and its three show-flags defined. *)
Theorem toggle_round_trip (state : PanelState) (ts : gmap string TopicConfig)
  (topicName : string) (cfg : TopicConfig) (b r p y : bool) :
  topics state = Some ts ->
  ts !! topicName = Some cfg ->
  cfg = {| enabled := Some b; showRoll := Some r;
           showPitch := Some p; showYaw := Some y |} ->
  (let* s1 := updateTopicStatus state topicName (negb b) in
   updateTopicStatus s1 topicName b) = ret state.
Proof.
  intros Hts Hcfg ->.
  rewrite (updateTopicStatus_present state ts topicName (negb b) Hts).
  rewrite bind_ret_l.
  rewrite updateTopicStatus_record.
  rewrite lookup_insert_eq, insert_insert_eq, Hcfg. cbn.
  rewrite (insert_id ts topicName _ Hcfg).
  destruct state as [t d]. cbn in *. rewrite Hts. reflexivity.
Qed.

(** X12.  A show-flag set on a source survives a later toggle of that
    source: after [updateTopicComponentStatus] and then
    [updateTopicStatus], the flag has the value set, [enabled] has the
    toggled value, and the other defined show-flags are kept. *)
Theorem component_flag_survives_toggle (state : PanelState)
  (ts : gmap string TopicConfig) (topicName : string) (cfg : TopicConfig)
  (c : TopicComponent) (v e : bool) :
  topics state = Some ts ->
  ts !! topicName = Some cfg ->
  exists ts2 cfg2,
    (let* s1 := updateTopicComponentStatus state topicName c v in
     updateTopicStatus s1 topicName e)
    = ret {| topics := Some ts2; displaySettings := displaySettings state |} /\
    ts2 !! topicName = Some cfg2 /\
    get_flag c cfg2 = Some v /\
    enabled cfg2 = Some e /\
    (forall c' b', c' <> c -> get_flag c' cfg = Some b' ->
                   get_flag c' cfg2 = Some b') /\
    (forall other, other <> topicName -> ts2 !! other = ts !! other).
Proof.
  intros Hts Hcfg.
  rewrite (updateTopicComponentStatus_present state ts topicName c v Hts).
  rewrite (own_or_inherited_own ts topicName cfg Hcfg), bind_ret_l.
  rewrite updateTopicStatus_record.
  cbn [displaySettings]. rewrite lookup_insert_eq, insert_insert_eq.
  eexists _, _. split; [reflexivity|].
  split; [apply lookup_insert_eq|].
  split; [destruct c; reflexivity|]. split; [reflexivity|]. split.
  - intros c' b' Hne Hb. destruct c, c'; try congruence;
      cbn in *; rewrite Hb; reflexivity.
  - intros other Hother. apply lookup_insert_ne. congruence.
Qed.

(** X13.  [updateTopicStatus] calls for different sources commute, and a
    repeated call changes nothing more. *)
Theorem updateTopicStatus_commutes (state : PanelState)
  (ts : gmap string TopicConfig) (n1 n2 : string) (e1 e2 : bool) :
  topics state = Some ts ->
  (n1 <> n2 ->
   (let* s1 := updateTopicStatus state n1 e1 in updateTopicStatus s1 n2 e2)
   = (let* s1 := updateTopicStatus state n2 e2 in
      updateTopicStatus s1 n1 e1)) /\
  (let* s1 := updateTopicStatus state n1 e1 in updateTopicStatus s1 n1 e1)
  = updateTopicStatus state n1 e1.
Proof.
  intros Hts. split.
  - intros Hne.
    rewrite (updateTopicStatus_present state ts n1 e1 Hts), bind_ret_l.
    rewrite (updateTopicStatus_present state ts n2 e2 Hts), bind_ret_l.
    rewrite !updateTopicStatus_record.
    cbn [displaySettings].
    rewrite (lookup_insert_ne ts n1 n2) by exact Hne.
    rewrite (lookup_insert_ne ts n2 n1) by congruence.
    rewrite (insert_insert_ne ts n1 n2) by exact Hne. reflexivity.
  - rewrite (updateTopicStatus_present state ts n1 e1 Hts), bind_ret_l.
    rewrite updateTopicStatus_record.
    cbn [displaySettings]. rewrite lookup_insert_eq, insert_insert_eq.
    cbn. destruct (ts !! n1) as [cfg|]; cbn;
      [destruct (showRoll cfg), (showPitch cfg), (showYaw cfg)|];
      reflexivity.
Qed.

(** X14.  [updateDisplaySetting] never throws and touches one flag: the
    named display flag gets the value, the two others and the topics
    mapping stay as they are, also on a state whose [displaySettings]
    object is missing, in which case the object is created with that one
    flag. *)
Theorem updateDisplaySetting_frame (state : PanelState)
  (c : DisplayComponent) (v : bool) :
  topics (updateDisplaySetting state c v) = topics state /\
  (exists d,
     displaySettings (updateDisplaySetting state c v) = Some d /\
     get_display c d = Some v /\
     forall c', c' <> c ->
       get_display c' d = opt_field (displaySettings state) (get_display c')).
Proof.
  split; [reflexivity|]. eexists. split; [reflexivity|].
  split; [destruct c; reflexivity|].
  intros c' Hne. destruct c, c'; try congruence;
    destruct (displaySettings state); reflexivity.
Qed.

(** X15.  Updates of different display flags commute, and of two updates
    of the same flag the later one wins. *)
Theorem updateDisplaySetting_composes (state : PanelState)
  (c c' : DisplayComponent) (v v' : bool) :
  (c <> c' ->
   updateDisplaySetting (updateDisplaySetting state c v) c' v'
   = updateDisplaySetting (updateDisplaySetting state c' v') c v) /\
  updateDisplaySetting (updateDisplaySetting state c v) c v'
  = updateDisplaySetting state c v'.
Proof.
  split.
  - intros Hne. destruct c, c'; try congruence; reflexivity.
  - destruct c; reflexivity.
Qed.

(** ** Settings tree and settings actions *)

Lemma fold_candidates_is_Some (ts : gmap string TopicConfig) (l : list Topic)
  (acc : SettingsTreeNodes) (k : string) :
  is_Some (OMap.get k (fold_left (add_candidate ts) l acc)) <->
  is_Some (OMap.get k acc) \/ (k ∈ map name l /\ k <> "__proto__").
Proof.
  revert acc. induction l as [|t l IH]; intros acc; cbn [fold_left map].
  - split; [auto|]. intros [H|[H _]]; [exact H|inversion H].
  - rewrite IH, elem_of_cons.
    destruct (decide (name t = "__proto__")) as [Hproto|Hproto].
    + rewrite add_candidate_proto by exact Hproto. split.
      * intros [H|[H Hk]]; auto.
      * intros [H|[[->|H] Hk]]; [auto|contradiction|auto].
    + rewrite add_candidate_named by exact Hproto. split.
      * intros [H|[H Hk]]; [|auto].
        apply omap_get_set_inv in H as [->|H]; auto.
      * intros [H|[[->|H] Hk]]; [| |auto].
        -- left. apply omap_get_set_is_Some. exact H.
        -- left. rewrite omap_get_set_eq. eauto.
Qed.

Lemma buildSettingsTree_nodes (state : PanelState)
  (ts : gmap string TopicConfig) (ds : DisplaySettings)
  (candidates : list Topic) :
  topics state = Some ts ->
  displaySettings state = Some ds ->
  exists tree,
    buildSettingsTree state candidates = ret tree /\
    (forall c, exists f,
       find_field tree ["general"] (display_key c) = Some f /\
       field_value f = get_display c ds) /\
    (forall k rest,
       find_node tree ("topics" :: k :: rest) =
       find_node (fold_left (add_candidate ts) candidates OMap.empty)
                 (k :: rest)).
Proof.
  intros Hts Hds.
  destruct (buildSettingsTree_present state ts ds candidates Hts Hds)
    as (general & Hrun & fr & fp & fy & Hfields & Hr & Hp & Hy).
  eexists. split; [exact Hrun|]. split.
  - intros c. unfold find_field. cbn [find_node]. unfold OMap.get at 1.
    cbn [assoc String.eqb Ascii.eqb Bool.eqb]. rewrite Hfields.
    destruct c; eexists; (split; [reflexivity|]); assumption.
  - intros k rest. reflexivity.
Qed.

(** X16.  The settings tree has a node under "topics" for a name exactly
    when the name is not [__proto__] and the topic catalog holds a topic
    of that name whose schema is [sensor_msgs/Imu] or
    [nav_msgs/Odometry]. *)
Theorem settings_tree_lists_orientation_topics (p : Panel)
  (ts : gmap string TopicConfig) (ds : DisplaySettings) :
  topics (state p) = Some ts ->
  displaySettings (state p) = Some ds ->
  exists tree,
    buildSettingsTree (state p) (orientationTopics p) = ret tree /\
    forall k,
      is_Some (find_node tree ["topics"; k]) <->
      k <> "__proto__" /\
      exists t, t ∈ default [] (catalog p) /\ name t = k /\
                (schemaName t = "sensor_msgs/Imu" \/
                 schemaName t = "nav_msgs/Odometry").
Proof.
  intros Hts Hds.
  destruct (buildSettingsTree_nodes (state p) ts ds (orientationTopics p)
              Hts Hds) as (tree & Hrun & _ & Hnodes).
  exists tree. split; [exact Hrun|]. intros k. rewrite Hnodes.
  cbn [find_node].
  assert (Hsome : forall o : option SettingsTreeNode,
             is_Some (match o with None => None | Some n => Some n end)
             <-> is_Some o) by (intros [n|]; reflexivity).
  rewrite Hsome, fold_candidates_is_Some. unfold orientationTopics. split.
  - intros [[x Hx]|[Hin Hproto]]; [discriminate Hx|].
    split; [exact Hproto|]. clear Hproto.
    apply list_elem_of_fmap in Hin as (t & -> & Hin).
    apply list_elem_of_In, filter_In in Hin as [Hin Hschema].
    exists t. split; [apply list_elem_of_In; exact Hin|].
    split; [reflexivity|]. cbn in Hschema.
    apply orb_true_iff in Hschema as [H|H].
    + left. apply String.eqb_eq. exact H.
    + rewrite orb_false_r in H. right. apply String.eqb_eq. exact H.
  - intros (Hproto & t & Hin & <- & Hschema). right.
    split; [|exact Hproto].
    apply list_elem_of_fmap. exists t. split; [reflexivity|].
    apply list_elem_of_In, filter_In. split; [apply list_elem_of_In; exact Hin|].
    cbn. destruct Hschema as [->| ->]; reflexivity.
Qed.

(** X17.  The handler acts on boolean updates of known paths only: an
    update whose value is not a boolean, an update whose path starts
    neither with "general" nor with "topics", and a node action lead to
    no handler call and no state update. *)
Theorem actionHandler_ignores :
  (forall path value,
     is_boolean value = false ->
     actionHandler (ActionUpdate path value) = None) /\
  (forall path value,
     path_is path 0 "general" = false ->
     path_is path 0 "topics" = false ->
     actionHandler (ActionUpdate path value) = None) /\
  (forall id path, actionHandler (ActionPerformNode id path) = None).
Proof.
  split; [|split].
  - intros path value Hv. unfold actionHandler. rewrite Hv.
    rewrite ?andb_false_r. cbn [andb].
    repeat match goal with
    | |- context [if ?b then _ else _] => destruct b
    | |- context [match ?o with Some _ => _ | None => _ end] => destruct o
    end; reflexivity.
  - intros path value Hg Ht. unfold actionHandler. rewrite Hg, Ht.
    reflexivity.
  - reflexivity.
Qed.

Section ActionFacts.

Variable Math_atan2 : Num.t -> Num.t -> Num.t.
Variable Math_asin : Num.t -> Num.t.
Variable StringToNumber : string -> Num.t.
Variable ArrayToNumber : list JsVal -> Num.t.

Local Abbreviation act :=
  (dispatch Math_atan2 Math_asin StringToNumber ArrayToNumber).
Local Abbreviation reach :=
  (reachable Math_atan2 Math_asin StringToNumber ArrayToNumber).

(** X18.  Round trip through the editor for a display flag: the boolean
    edit of the field [general/<flag>] leads to a state whose settings
    tree shows the edited value in that very field, and leaves the caches
    untouched. *)
Theorem display_edit_round_trip (p : Panel) (ts : gmap string TopicConfig)
  (ds : DisplaySettings) (c : DisplayComponent) (v : bool)
  (candidates : list Topic) :
  topics (state p) = Some ts ->
  displaySettings (state p) = Some ds ->
  exists p' tree f,
    returns (act p (ActionUpdate ["general"; display_key c] (JBool v))) p' /\
    buildSettingsTree (state p') candidates = ret tree /\
    find_field tree ["general"] (display_key c) = Some f /\
    field_value f = Some v /\
    messages p' = messages p /\ orientations p' = orientations p.
Proof.
  intros Hts Hds.
  assert (Hact : actionHandler
                   (ActionUpdate ["general"; display_key c] (JBool v))
                 = Some (SetDisplaySetting c v))
    by (destruct c; reflexivity).
  unfold dispatch. rewrite Hact.
  destruct (buildSettingsTree_nodes
              (updateDisplaySetting (state p) c v) ts
              (set_display c v (displaySettings (state p))) candidates
              Hts eq_refl) as (tree & Hrun & Hgen & _).
  destruct (Hgen c) as (f & Hf & Hval).
  exists (with_state p (updateDisplaySetting (state p) c v)), tree, f.
  split; [reflexivity|]. split; [exact Hrun|]. split; [exact Hf|].
  split; [|split; reflexivity].
  rewrite Hval. destruct c; reflexivity.
Qed.

(** X19.  Round trip through the editor for a show-flag: for an enabled
    candidate source of any name but [__proto__], the boolean edit of the
    field
    [topics/<name>/topicSettings/<flag>] leads to a state whose settings
    tree shows the edited value in that very field; the source stays
    enabled and the caches are untouched. *)
Theorem topic_flag_edit_round_trip (p : Panel) (ts : gmap string TopicConfig)
  (ds : DisplaySettings) (t : Topic) (cfg : TopicConfig)
  (c : TopicComponent) (v : bool) (candidates : list Topic) :
  topics (state p) = Some ts ->
  displaySettings (state p) = Some ds ->
  ts !! name t = Some cfg ->
  flag_truthy (enabled cfg) = true ->
  t ∈ candidates ->
  name t <> "__proto__" ->
  exists p' tree f n,
    returns (act p (ActionUpdate
                      ["topics"; name t; "topicSettings"; topic_key c]
                      (JBool v))) p' /\
    buildSettingsTree (state p') candidates = ret tree /\
    find_field tree ["topics"; name t; "topicSettings"] (topic_key c)
      = Some f /\
    field_value f = Some v /\
    find_node tree ["topics"; name t] = Some n /\
    node_visible n = Some true /\
    messages p' = messages p /\ orientations p' = orientations p.
Proof.
  intros Hts Hds Hcfg Hen Hin Hproto.
  assert (Hact : actionHandler
                   (ActionUpdate
                      ["topics"; name t; "topicSettings"; topic_key c]
                      (JBool v))
                 = Some (SetTopicComponent (name t) c v))
    by (destruct c; reflexivity).
  unfold dispatch. rewrite Hact.
  pose proof (step_set_topic_component Math_atan2 Math_asin StringToNumber
                ArrayToNumber p ts (name t) c v Hts) as Hstep.
  rewrite (own_or_inherited_own ts (name t) cfg Hcfg) in Hstep.
  set (ts' := <[name t := set_flag c v cfg]> ts) in *.
  destruct (buildSettingsTree_nodes
              {| topics := Some ts';
                 displaySettings := displaySettings (state p) |}
              ts' ds candidates eq_refl Hds)
    as (tree & Hrun & _ & Hnodes).
  assert (Hnode : OMap.get (name t)
                    (fold_left (add_candidate ts') candidates OMap.empty)
                  = Some (candidate_node ts' (name t)))
    by (apply fold_candidates_get; assumption).
  assert (Hlook : ts' !! name t = Some (set_flag c v cfg))
    by apply lookup_insert_eq.
  assert (Hen' : default false (enabled (set_flag c v cfg)) = true)
    by (rewrite set_flag_enabled; exact Hen).
  assert (Hfield : exists f,
            find_field tree ["topics"; name t; "topicSettings"] (topic_key c)
              = Some f /\ field_value f = Some v).
  { unfold find_field. rewrite Hnodes. cbn [find_node]. rewrite Hnode.
    unfold candidate_node. rewrite Hlook. cbn [opt_field node_children].
    rewrite Hen'. cbn [find_node]. unfold OMap.get at 1.
    cbn [assoc String.eqb Ascii.eqb Bool.eqb topic_settings_node node_fields].
    clear. destruct c; eexists; split; reflexivity. }
  destruct Hfield as (f & Hf & Hval).
  eexists _, tree, f, (candidate_node ts' (name t)).
  split; [exact Hstep|]. split; [exact Hrun|]. split; [exact Hf|].
  split; [exact Hval|]. split.
  { rewrite Hnodes. cbn [find_node]. rewrite Hnode. reflexivity. }
  split; [|split; reflexivity].
  unfold candidate_node. rewrite Hlook. cbn [opt_field node_visible].
  rewrite Hen'. reflexivity.
Qed.

(** X20.  The visibility toggle of the editor: a boolean update at
    [topics/<name>], [topics/<name>/visible] or [topics/<name>/enabled]
    leads to a state whose settings tree shows that value as the
    visibility of the source's node, for a candidate source of any name
    but [__proto__]; and when the value is false, the source, whatever
    its name, has no cached message and no cached orientation left. *)
Theorem visibility_edit (p : Panel) (t : Topic) (path : list string)
  (v : bool) (candidates : list Topic) :
  reach p ->
  t ∈ candidates ->
  path = ["topics"; name t] \/ path = ["topics"; name t; "visible"] \/
  path = ["topics"; name t; "enabled"] ->
  exists p' tree,
    returns (act p (ActionUpdate path (JBool v))) p' /\
    buildSettingsTree (state p') candidates = ret tree /\
    (name t <> "__proto__" ->
     exists n, find_node tree ["topics"; name t] = Some n /\
               node_visible n = Some v) /\
    (v = false ->
     OMap.get (name t) (messages p') = None /\
     OMap.get (name t) (orientations p') = None).
Proof.
  intros Hreach Hin Hpath.
  destruct (reachable_caches _ _ _ _ p Hreach) as (ts & Hts & Hnd & Hom & Hme).
  destruct (reachable_displaySettings _ _ _ _ p Hreach) as [ds Hds].
  assert (Hact : actionHandler (ActionUpdate path (JBool v))
                 = Some (SetTopicEnabled (name t) v))
    by (destruct Hpath as [->|[->| ->]]; reflexivity).
  unfold dispatch. rewrite Hact.
  destruct (step_set_topic_enabled Math_atan2 Math_asin StringToNumber
              ArrayToNumber p ts (name t) v Hts)
    as (cfg' & subs & Hen & Hstep).
  cbv zeta in Hstep.
  set (ts' := <[name t := cfg']> ts) in *.
  destruct (buildSettingsTree_nodes
              {| topics := Some ts';
                 displaySettings := displaySettings (state p) |}
              ts' ds candidates eq_refl Hds)
    as (tree & Hrun & _ & Hnodes).
  eexists _, tree.
  split; [exact Hstep|]. split; [exact Hrun|]. split.
  { intros Hproto. exists (candidate_node ts' (name t)). split.
    - rewrite Hnodes. cbn [find_node].
      rewrite (fold_candidates_get ts' candidates OMap.empty t Hin Hproto).
      reflexivity.
    - unfold candidate_node. cbn [node_visible]. unfold ts'.
      rewrite lookup_insert_eq. cbn [opt_field]. rewrite Hen.
      reflexivity. }
  intros ->. cbn [negb andb messages orientations].
  destruct (OMap.has (name t) (messages p)) eqn:Hhas.
  - split; [apply omap_get_delete_eq|].
    rewrite store_fold_other by apply omap_get_delete_eq.
    apply omap_get_delete_eq.
  - apply omap_has_false in Hhas. split; [exact Hhas|].
    destruct (OMap.get (name t) (orientations p)) eqn:Ho; [|reflexivity].
    destruct (Hom (name t)) as [x Hx]; [eauto|]. congruence.
Qed.

End ActionFacts.

(** ** Indicators and values *)

Lemma axis_indicators_off (ts : gmap string TopicConfig) (prefix : string)
  (flag : TopicConfig -> option bool) (angle : Orientation -> Num.t)
  (n : nat) (es : list (string * Orientation)) :
  axis_indicators ts prefix false flag angle n es = [].
Proof.
  revert n. induction es as [|[k o] es IH]; intros n; simpl; auto.
Qed.

Lemma axis_indicators_length (ts : gmap string TopicConfig) (prefix : string)
  (on : bool) (flag : TopicConfig -> option bool)
  (angle : Orientation -> Num.t) (n : nat) (es : list (string * Orientation)) :
  length (axis_indicators ts prefix on flag angle n es) <= length es.
Proof.
  revert n. induction es as [|[k o] es IH]; intros n; simpl; [lia|].
  rewrite length_app. specialize (IH (S n)).
  destruct (on && flag_truthy (opt_field (ts !! k) flag)); simpl; lia.
Qed.

Lemma axis_indicators_elem (ts : gmap string TopicConfig) (prefix : string)
  (on : bool) (flag : TopicConfig -> option bool)
  (angle : Orientation -> Num.t) (n : nat) (es : list (string * Orientation))
  (ind : Indicator) :
  ind ∈ axis_indicators ts prefix on flag angle n es <->
  exists j k o,
    es !! j = Some (k, o) /\ on = true /\
    flag_truthy (opt_field (ts !! k) flag) = true /\
    ind = indicator_at prefix (n + j) (angle o).
Proof.
  revert n. induction es as [|[k o] es IH]; intros n; cbn [axis_indicators].
  - split; [intros H; inversion H|]. intros (j & k & o & H & _). discriminate H.
  - rewrite elem_of_app, IH. split.
    + intros [H|(j & k' & o' & Hj & Hon & Hf & ->)].
      * destruct on; [|inversion H].
        destruct (flag_truthy (opt_field (ts !! k) flag)) eqn:Hf;
          [|inversion H].
        apply list_elem_of_singleton in H. subst ind.
        exists 0, k, o. rewrite Nat.add_0_r. auto.
      * exists (S j), k', o'. replace (n + S j) with (S n + j) by lia. auto.
    + intros ([|j] & k' & o' & Hj & Hon & Hf & ->).
      * injection Hj as <- <-. left. rewrite Hon, Hf, Nat.add_0_r.
        apply list_elem_of_singleton. reflexivity.
      * right. exists j, k', o'. replace (S n + j) with (n + S j) by lia. auto.
Qed.

Lemma draw_loop_displays (state : PanelState) (ts : gmap string TopicConfig)
  (r p y : bool) (l : OMap.t Orientation) (d : Displays) :
  topics state = Some ts ->
  exists d',
    forEachM (draw_topic state r p y) l d = ret d' /\
    let es := take (MAX_TOPICS - topicIndex d)
                   (List.filter (fun e => enabled_in ts (fst e)) l) in
    rollDisplay d' =
      rollDisplay d ++
      axis_indicators ts "topic-indicator " r showRoll roll (topicIndex d) es /\
    pitchDisplay d' =
      pitchDisplay d ++
      axis_indicators ts "topic-indicator " p showPitch pitch (topicIndex d) es /\
    yawDisplay d' =
      yawDisplay d ++
      axis_indicators ts "yaw-indicator " y showYaw yaw (topicIndex d) es.
Proof.
  intros Hts. revert d. induction l as [|[k o] l IH]; intros d.
  - exists d. split; [reflexivity|]. cbn. rewrite take_nil. cbn.
    rewrite !app_nil_r. auto.
  - cbn [forEachM]. unfold draw_topic at 1.
    destruct (MAX_TOPICS <=? topicIndex d)%nat eqn:Hcap.
    + rewrite bind_ret_l. destruct (IH d) as (d' & Hrun & Hd).
      exists d'. split; [exact Hrun|]. cbv zeta in *.
      apply Nat.leb_le in Hcap.
      replace (MAX_TOPICS - topicIndex d) with 0 in * by lia.
      exact Hd.
    + rewrite (topic_config_present state ts k Hts), bind_ret_l.
      apply Nat.leb_gt in Hcap. cbn [List.filter fst].
      destruct (ts !! k) as [cfg|] eqn:Hcfg.
      * destruct (flag_truthy (enabled cfg)) eqn:Hen; cbn [negb].
        -- assert (He : enabled_in ts k = true)
             by (unfold enabled_in; rewrite Hcfg; exact Hen).
           rewrite He, bind_ret_l.
           match goal with
           | |- context [forEachM _ l ?d0] =>
               destruct (IH d0) as (d' & Hrun & Hr & Hp & Hy)
           end.
           exists d'. split; [exact Hrun|]. cbv zeta.
           cbn [topicIndex rollDisplay pitchDisplay yawDisplay] in Hr, Hp, Hy.
           destruct (MAX_TOPICS - topicIndex d) as [|n] eqn:Hn; [lia|].
           replace (MAX_TOPICS - S (topicIndex d)) with n in * by lia.
           cbn [take axis_indicators]. rewrite Hcfg. cbn [opt_field].
           rewrite Hr, Hp, Hy.
           repeat split;
             match goal with
             | |- context [if ?b then _ else _] => destruct b
             end; rewrite <- ?app_assoc; reflexivity.
        -- assert (He : enabled_in ts k = false)
             by (unfold enabled_in; rewrite Hcfg; exact Hen).
           rewrite He, bind_ret_l. apply IH.
      * assert (He : enabled_in ts k = false)
          by (unfold enabled_in; rewrite Hcfg; reflexivity).
        rewrite He, bind_ret_l. apply IH.
Qed.

(** The three displays after the display effect. *)
Lemma updateDisplays_closed (p : Panel) (ts : gmap string TopicConfig)
  (ds : DisplaySettings) :
  topics (state p) = Some ts ->
  displaySettings (state p) = Some ds ->
  exists d,
    updateDisplays p = ret d /\
    forall a,
      axis_display a d =
      axis_indicators ts (axis_prefix a) (flag_truthy (axis_global a ds))
        (axis_flag a) (axis_angle a) 0 (drawn_entries ts (orientations p)).
Proof.
  intros Hts Hds. unfold updateDisplays.
  rewrite !(display_flag_present (state p) ds _ Hds), !bind_ret_l.
  cbn [get_display]. cbv zeta.
  destruct (negb (flag_truthy (rollEnabled ds))
            && negb (flag_truthy (pitchEnabled ds))
            && negb (flag_truthy (yawEnabled ds))) eqn:Hoff.
  - eexists. split; [reflexivity|].
    destruct (flag_truthy (rollEnabled ds)) eqn:Hr; [discriminate Hoff|].
    destruct (flag_truthy (pitchEnabled ds)) eqn:Hp; [discriminate Hoff|].
    destruct (flag_truthy (yawEnabled ds)) eqn:Hy; [discriminate Hoff|].
    intros a.
    destruct a; cbn [axis_display axis_global rollDisplay pitchDisplay
                       yawDisplay];
      rewrite ?Hr, ?Hp, ?Hy, axis_indicators_off; reflexivity.
  - destruct (draw_loop_displays (state p) ts (flag_truthy (rollEnabled ds))
                (flag_truthy (pitchEnabled ds)) (flag_truthy (yawEnabled ds))
                (orientations p) (mkDisplays 0 [] [] [] []) Hts)
      as (d & Hrun & Hr & Hp & Hy).
    exists d. split; [exact Hrun|].
    cbn [topicIndex rollDisplay pitchDisplay yawDisplay app] in Hr, Hp, Hy.
    rewrite Nat.sub_0_r in Hr, Hp, Hy.
    intros a. destruct a; cbn; assumption.
Qed.

(** X21.  The display effect draws nothing in a display whose global
    flag is not truthy, and never more than [MAX_TOPICS] indicators in
    any display. *)
Theorem displays_gated_and_bounded (p : Panel) (ts : gmap string TopicConfig)
  (ds : DisplaySettings) :
  topics (state p) = Some ts ->
  displaySettings (state p) = Some ds ->
  exists d,
    updateDisplays p = ret d /\
    forall a,
      length (axis_display a d) <= MAX_TOPICS /\
      (flag_truthy (axis_global a ds) = false -> axis_display a d = []).
Proof.
  intros Hts Hds.
  destruct (updateDisplays_closed p ts ds Hts Hds) as (d & Hrun & Hd).
  exists d. split; [exact Hrun|]. intros a. rewrite Hd. split.
  - etransitivity; [apply axis_indicators_length|].
    unfold drawn_entries. rewrite length_take. lia.
  - intros ->. apply axis_indicators_off.
Qed.

(** X22.  What is drawn: a display holds an indicator exactly for each
    of the first [MAX_TOPICS] enabled sources of the cache whose
    show-flag for that axis is truthy, provided the display's global flag
    is truthy; the indicator is rotated by the cached angle of the source
    and colored by the position of the source among those enabled
    sources, the same position in the three displays. *)
Theorem indicator_iff_shown (p : Panel) (ts : gmap string TopicConfig)
  (ds : DisplaySettings) :
  topics (state p) = Some ts ->
  displaySettings (state p) = Some ds ->
  exists d,
    updateDisplays p = ret d /\
    forall a ind,
      ind ∈ axis_display a d <->
      exists i k o cfg,
        drawn_entries ts (orientations p) !! i = Some (k, o) /\
        flag_truthy (axis_global a ds) = true /\
        ts !! k = Some cfg /\
        flag_truthy (axis_flag a cfg) = true /\
        ind = indicator_at (axis_prefix a) i (axis_angle a o).
Proof.
  intros Hts Hds.
  destruct (updateDisplays_closed p ts ds Hts Hds) as (d & Hrun & Hd).
  exists d. split; [exact Hrun|]. intros a ind.
  rewrite Hd, axis_indicators_elem. split.
  - intros (j & k & o & Hj & Hon & Hf & ->).
    destruct (ts !! k) as [cfg|] eqn:Hcfg; [|discriminate Hf].
    exists j, k, o, cfg. auto.
  - intros (i & k & o & cfg & Hi & Hon & Hcfg & Hf & ->).
    exists i, k, o. rewrite Hcfg. auto.
Qed.

(** *** The list of values *)

Lemma shown_value_present (state : PanelState) (ts : gmap string TopicConfig)
  (ds : DisplaySettings) (c : DisplayComponent) (k : string)
  (flag : TopicConfig -> option bool) (value : Num.t) :
  topics state = Some ts ->
  displaySettings state = Some ds ->
  shown_value state c k flag value =
  ret (if flag_truthy (get_display c ds)
          && flag_truthy (opt_field (ts !! k) flag)
       then Some value else None).
Proof.
  intros Hts Hds. unfold shown_value.
  rewrite (display_flag_present state ds c Hds), bind_ret_l.
  destruct (flag_truthy (get_display c ds)); [|reflexivity].
  rewrite (topic_config_present state ts k Hts), bind_ret_l. reflexivity.
Qed.

Lemma value_items_present (state : PanelState) (ts : gmap string TopicConfig)
  (ds : DisplaySettings) (n : nat) (l : list (string * Orientation)) :
  topics state = Some ts ->
  displaySettings state = Some ds ->
  exists items,
    value_items state n l = ret items /\
    map item_topicName items = map fst l /\
    forall j k o,
      l !! j = Some (k, o) ->
      exists item,
        items !! j = Some item /\
        item_topicName item = k /\
        item_className item =
          ("topic-value-item " ++
           template (CONFIG.colorClasses !! (n + j)))%string /\
        forall a,
          axis_item a item =
          if flag_truthy (axis_global a ds)
             && flag_truthy (opt_field (ts !! k) (axis_flag a))
          then Some (axis_angle a o) else None.
Proof.
  intros Hts Hds. revert n. induction l as [|[k o] l IH]; intros n.
  - exists []. split; [reflexivity|]. split; [reflexivity|].
    intros j k o H. discriminate H.
  - cbn [value_items]. cbv zeta.
    rewrite !(shown_value_present state ts ds _ k _ _ Hts Hds), !bind_ret_l.
    destruct (IH (S n)) as (items & Hrun & Hnames & Hitems).
    rewrite Hrun, bind_ret_l. eexists. split; [reflexivity|].
    split; [cbn; rewrite Hnames; reflexivity|].
    intros [|j] k' o' Hj.
    + injection Hj as <- <-. eexists. split; [reflexivity|].
      rewrite Nat.add_0_r. split; [reflexivity|]. split; [reflexivity|].
      intros a. destruct a; reflexivity.
    + destruct (Hitems j k' o' Hj) as (item & Hi & Hn & Hc & Ha).
      exists item. split; [exact Hi|]. split; [exact Hn|].
      replace (n + S j) with (S n + j) by lia. auto.
Qed.

(** X23.  The list of values has one item per cached orientation, in
    cache order and without the cap of the displays; an item shows the
    angle of an axis when the global flag of the axis and the source's
    show-flag are both truthy, and its color class is that of its
    position in the cache. *)
Theorem topicValues_items (p : Panel) (ts : gmap string TopicConfig)
  (ds : DisplaySettings) :
  topics (state p) = Some ts ->
  displaySettings (state p) = Some ds ->
  exists items,
    topicValues p = ret items /\
    map item_topicName items = OMap.keys (orientations p) /\
    forall j k o,
      orientations p !! j = Some (k, o) ->
      exists item,
        items !! j = Some item /\
        item_topicName item = k /\
        item_className item =
          ("topic-value-item " ++
           template (CONFIG.colorClasses !! j))%string /\
        forall a,
          axis_item a item =
          if flag_truthy (axis_global a ds)
             && flag_truthy (opt_field (ts !! k) (axis_flag a))
          then Some (axis_angle a o) else None.
Proof.
  intros Hts Hds.
  destruct (value_items_present (state p) ts ds 0 (orientations p) Hts Hds)
    as (items & Hrun & Hnames & Hitems).
  exists items. split; [exact Hrun|]. split; [exact Hnames|]. exact Hitems.
Qed.

Lemma number_from_elem (n : nat) (ks : list string) (k : string) (i : nat) :
  (k, i) ∈ number_from n ks <-> exists j, i = n + j /\ ks !! j = Some k.
Proof.
  revert n. induction ks as [|k' ks IH]; intros n; cbn [number_from].
  - split; [intros H; inversion H|]. intros (j & _ & H). discriminate H.
  - rewrite elem_of_cons, IH. split.
    + intros [[= -> ->]|(j & -> & Hj)].
      * exists 0. rewrite Nat.add_0_r. auto.
      * exists (S j). split; [lia|exact Hj].
    + intros ([|j] & -> & Hj).
      * injection Hj as ->. left. rewrite Nat.add_0_r. reflexivity.
      * right. exists j. split; [lia|exact Hj].
Qed.

Lemma filter_all {A} (f : A -> bool) (l : list A) :
  (forall x, x ∈ l -> f x = true) -> List.filter f l = l.
Proof.
  induction l as [|a l IH]; intros H; simpl; [reflexivity|].
  rewrite (H a) by (left). rewrite IH; [reflexivity|].
  intros x Hx. apply H. right. exact Hx.
Qed.

Section ColorFacts.

Variable Math_atan2 : Num.t -> Num.t -> Num.t.
Variable Math_asin : Num.t -> Num.t.
Variable StringToNumber : string -> Num.t.
Variable ArrayToNumber : list JsVal -> Num.t.

Local Abbreviation reach :=
  (reachable Math_atan2 Math_asin StringToNumber ArrayToNumber).

(** In a reachable state every cached orientation belongs to an enabled
    source, so the display effect draws the first entries of the cache. *)
Lemma reachable_drawn_entries (p : Panel) (ts : gmap string TopicConfig) :
  reach p ->
  topics (state p) = Some ts ->
  drawn_entries ts (orientations p) = take MAX_TOPICS (orientations p) /\
  List.filter (enabled_in ts) (OMap.keys (orientations p))
  = OMap.keys (orientations p).
Proof.
  intros Hreach Hts.
  destruct (reachable_caches _ _ _ _ p Hreach) as (ts0 & Hts0 & _ & Hom & Hme).
  assert (ts0 = ts) as -> by congruence.
  assert (Hen : forall k, k ∈ OMap.keys (orientations p) ->
                          enabled_in ts k = true).
  { intros k Hk. apply Hme, Hom. apply omap_get_keys. exact Hk. }
  split.
  - unfold drawn_entries. rewrite filter_all; [reflexivity|].
    intros [k o] Hin. apply Hen. unfold OMap.keys.
    apply list_elem_of_fmap. exists (k, o). auto.
  - apply filter_all. exact Hen.
Qed.

(** X24.  Colors agree between the displays and the list of values: in
    every reachable state, a source that the display effect gives the
    index [i] is the [i]-th entry of the cache, so its item in the list
    of values carries the color class of index [i], the one that its
    indicators carry. *)
Theorem values_match_indicators (p : Panel) (ts : gmap string TopicConfig)
  (d : Displays) (k : string) (i : nat) :
  reach p ->
  topics (state p) = Some ts ->
  updateDisplays p = ret d ->
  (k, i) ∈ indexed d ->
  exists items item o,
    topicValues p = ret items /\
    items !! i = Some item /\
    item_topicName item = k /\
    item_className item =
      ("topic-value-item " ++ template (CONFIG.colorClasses !! i))%string /\
    drawn_entries ts (orientations p) !! i = Some (k, o) /\
    i < MAX_TOPICS.
Proof.
  intros Hreach Hts Hd Hin.
  destruct (reachable_displaySettings _ _ _ _ p Hreach) as [ds Hds].
  destruct (reachable_drawn_entries p ts Hreach Hts) as [Hdrawn Hfilter].
  rewrite (updateDisplays_indexed p ts ds d Hts Hds Hd) in Hin.
  destruct (flag_truthy (rollEnabled ds) || flag_truthy (pitchEnabled ds)
            || flag_truthy (yawEnabled ds)); [|inversion Hin].
  rewrite Hfilter in Hin.
  apply number_from_elem in Hin as (j & -> & Hj). cbn [Nat.add] in *.
  rewrite lookup_take in Hj. destruct (decide (j < MAX_TOPICS)) as [Hlt|];
    [|discriminate Hj].
  unfold OMap.keys in Hj.
  change (map fst (orientations p)) with (fst <$> orientations p) in Hj.
  rewrite list_lookup_fmap in Hj.
  apply fmap_Some in Hj as ([k' o] & Hentry & ->). cbn [fst].
  destruct (value_items_present (state p) ts ds 0 (orientations p) Hts Hds)
    as (items & Hrun & _ & Hitems).
  destruct (Hitems j k' o Hentry) as (item & Hi & Hn & Hc & _).
  exists items, item, o. split; [exact Hrun|]. split; [exact Hi|].
  split; [exact Hn|]. split; [exact Hc|]. split; [|exact Hlt].
  rewrite Hdrawn, lookup_take. destruct (decide (j < MAX_TOPICS)); [|lia].
  exact Hentry.
Qed.

End ColorFacts.

(** ** Discarded frames, and restoring a saved state *)

Lemma keep_enabled_fold_disabled (ts : gmap string TopicConfig)
  (frame : list MessageEvent) (acc : OMap.t MessageEvent) :
  (forall m, m ∈ frame -> enabled_in ts (topic m) = false) ->
  fold_left (keep_enabled ts) frame acc = acc.
Proof.
  revert acc. induction frame as [|m frame IH]; intros acc H; cbn [fold_left];
    [reflexivity|].
  unfold keep_enabled at 2. rewrite (H m) by left.
  apply IH. intros m' Hm'. apply H. right. exact Hm'.
Qed.

Section DiscardFacts.

Variable Math_atan2 : Num.t -> Num.t -> Num.t.
Variable Math_asin : Num.t -> Num.t.
Variable StringToNumber : string -> Num.t.
Variable ArrayToNumber : list JsVal -> Num.t.

(** X25.  Messages of sources that are not enabled are discarded: in a
    reachable state, a frame that holds only such messages (an empty
    frame too) changes neither cache nor the state; the delivery only
    records the topic catalog. *)
Theorem deliver_discards_disabled (p : Panel) (ts : gmap string TopicConfig)
  (frame : list MessageEvent) (cat : option (list Topic)) :
  reachable Math_atan2 Math_asin StringToNumber ArrayToNumber p ->
  topics (state p) = Some ts ->
  (forall m, m ∈ frame -> enabled_in ts (topic m) = false) ->
  returns (step Math_atan2 Math_asin StringToNumber ArrayToNumber p
             (Deliver (Some frame) cat))
    {| state := state p;
       messages := messages p;
       orientations := orientations p;
       catalog := cat;
       subscribed := subscribed p |}.
Proof.
  intros Hreach Hts Hoff.
  pose proof (step_deliver Math_atan2 Math_asin StringToNumber ArrayToNumber
                p ts (Some frame) cat Hts) as H.
  destruct frame as [|m frame]; [exact H|].
  cbv zeta in H.
  rewrite (keep_enabled_fold_disabled ts (m :: frame) (messages p) Hoff) in H.
  destruct (reachable_coherent _ _ _ _ p Hreach) as (Hm & Ho & Hco).
  rewrite store_fold_fixpoint in H; [exact H|].
  intros k msg o Hin. apply Hco. apply omap_get_elem; assumption.
Qed.

End DiscardFacts.

(** X26.  Saving and restoring: the panel saves its state as it is, and
    the initializer applied to a saved state whose [topics] mapping and
    [displaySettings] object are present gives that state back. *)
Theorem restore_saved_state (state : PanelState)
  (ts : gmap string TopicConfig) (ds : DisplaySettings) :
  topics state = Some ts ->
  displaySettings state = Some ds ->
  initialPanelState (Some state) = state.
Proof.
  intros Hts Hds. destruct state as [t d]. cbn in *. subst t d.
  unfold initialPanelState. cbn. f_equal. f_equal.
  apply (right_id_L ∅ (∪)).
Qed.

(** ** Closed instances of the further properties *)



Lemma orientation_follows_message_witness :
  OMap.get "/imu" (messages ExampleData.fed_panel) = Some Example.imu_message /\
  converted Example.atan2 Example.asin Example.string_to_number
    Example.array_to_number Example.imu_message = Some zero_orientation /\
  OMap.get "/imu" (orientations ExampleData.fed_panel) = Some zero_orientation.
Proof.
  assert (Hm : OMap.get "/imu" (messages ExampleData.fed_panel)
               = Some Example.imu_message) by (vm_compute; reflexivity).
  assert (Hc : converted Example.atan2 Example.asin Example.string_to_number
                 Example.array_to_number Example.imu_message
               = Some zero_orientation) by (vm_compute; reflexivity).
  split; [exact Hm|]. split; [exact Hc|].
  apply (orientation_follows_message Example.atan2 Example.asin
           Example.string_to_number Example.array_to_number
           ExampleData.fed_panel "/imu" Example.imu_message zero_orientation
           (example_after_reachable Example.enable_and_feed) Hm Hc).
Defined.

Lemma processMessages_idle_witness :
  reachable Example.atan2 Example.asin Example.string_to_number
    Example.array_to_number ExampleData.fed_panel /\
  returns (processMessages Example.atan2 Example.asin Example.string_to_number
             Example.array_to_number ExampleData.fed_panel)
          ExampleData.fed_panel.
Proof.
  split; [apply example_after_reachable|].
  apply (processMessages_idle Example.atan2 Example.asin
           Example.string_to_number Example.array_to_number
           ExampleData.fed_panel
           (example_after_reachable Example.enable_and_feed)).
Defined.

Lemma subscription_follows_toggle_witness :
  topics (state ExampleData.enabled_panel) = Some ExampleData.imu_topics /\
  exists p',
    returns (Example.run ExampleData.enabled_panel
               (SetTopicEnabled "/gps" true)) p' /\
    "/gps" ∈ subscribed p' /\ "/imu" ∈ subscribed p'.
Proof.
  assert (Hts : topics (state ExampleData.enabled_panel)
                = Some ExampleData.imu_topics) by (vm_compute; reflexivity).
  split; [exact Hts|].
  destruct (subscription_follows_toggle Example.atan2 Example.asin
              Example.string_to_number Example.array_to_number
              ExampleData.enabled_panel ExampleData.imu_topics "/gps" true Hts)
    as (p' & Hrun & _ & HA & HB).
  exists p'. split; [exact Hrun|]. split.
  - apply HA. reflexivity.
  - apply HB; [discriminate | vm_compute; reflexivity].
Defined.

Lemma toggle_leaves_other_sources_witness :
  "/gps" <> "/imu" /\
  exists p',
    returns (Example.run ExampleData.fed_panel (SetTopicEnabled "/gps" false))
            p' /\
    OMap.get "/imu" (orientations p') = Some zero_orientation.
Proof.
  assert (Hne : "/gps" <> "/imu") by discriminate.
  split; [exact Hne|].
  destruct (toggle_leaves_other_sources Example.atan2 Example.asin
              Example.string_to_number Example.array_to_number
              ExampleData.fed_panel "/gps" "/imu" false
              (example_after_reachable Example.enable_and_feed) Hne)
    as (p' & Hrun & _ & Ho & _).
  exists p'. split; [exact Hrun|]. rewrite Ho. vm_compute. reflexivity.
Defined.

Lemma delivery_keeps_display_index_witness :
  returns (Example.run ExampleData.fed_panel
             (Deliver (Some [Example.imu_message]) None))
          ExampleData.fed_twice_panel /\
  updateDisplays ExampleData.fed_panel
    = ret (ExampleData.displays_of ExampleData.fed_panel) /\
  updateDisplays ExampleData.fed_twice_panel
    = ret (ExampleData.displays_of ExampleData.fed_twice_panel) /\
  indexed (ExampleData.displays_of ExampleData.fed_panel) `prefix_of`
  indexed (ExampleData.displays_of ExampleData.fed_twice_panel).
Proof.
  assert (Hrun : returns (Example.run ExampleData.fed_panel
                            (Deliver (Some [Example.imu_message]) None))
                         ExampleData.fed_twice_panel)
    by (vm_compute; reflexivity).
  assert (Hd : updateDisplays ExampleData.fed_panel
               = ret (ExampleData.displays_of ExampleData.fed_panel))
    by (vm_compute; reflexivity).
  assert (Hd' : updateDisplays ExampleData.fed_twice_panel
                = ret (ExampleData.displays_of ExampleData.fed_twice_panel))
    by (vm_compute; reflexivity).
  split; [exact Hrun|]. split; [exact Hd|]. split; [exact Hd'|].
  apply (delivery_keeps_display_index Example.atan2 Example.asin
           Example.string_to_number Example.array_to_number
           ExampleData.fed_panel ExampleData.fed_twice_panel
           (Some [Example.imu_message]) None _ _
           (example_after_reachable Example.enable_and_feed) Hrun Hd Hd').
Defined.

Lemma toggle_round_trip_witness :
  topics Example.imu_state = Some ExampleData.imu_topics /\
  ExampleData.imu_topics !! "/imu" = Some all_shown /\
  (let* s1 := updateTopicStatus Example.imu_state "/imu" false in
   updateTopicStatus s1 "/imu" true) = ret Example.imu_state.
Proof.
  assert (Hl : ExampleData.imu_topics !! "/imu" = Some all_shown)
    by (vm_compute; reflexivity).
  split; [reflexivity|]. split; [exact Hl|].
  apply (toggle_round_trip Example.imu_state ExampleData.imu_topics "/imu"
           all_shown true true true true eq_refl Hl eq_refl).
Defined.

Lemma component_flag_survives_toggle_witness :
  topics Example.imu_state = Some ExampleData.imu_topics /\
  ExampleData.imu_topics !! "/imu" = Some all_shown /\
  exists ts2 cfg2,
    (let* s1 := updateTopicComponentStatus Example.imu_state "/imu" ShowYaw
                  false in
     updateTopicStatus s1 "/imu" false)
    = ret {| topics := Some ts2;
             displaySettings := displaySettings Example.imu_state |} /\
    ts2 !! "/imu" = Some cfg2 /\
    get_flag ShowYaw cfg2 = Some false /\
    enabled cfg2 = Some false.
Proof.
  assert (Hl : ExampleData.imu_topics !! "/imu" = Some all_shown)
    by (vm_compute; reflexivity).
  split; [reflexivity|]. split; [exact Hl|].
  destruct (component_flag_survives_toggle Example.imu_state
              ExampleData.imu_topics "/imu" all_shown ShowYaw false false
              eq_refl Hl)
    as (ts2 & cfg2 & H1 & H2 & H3 & H4 & _).
  exists ts2, cfg2. auto.
Defined.

Lemma updateTopicStatus_commutes_witness :
  topics Example.imu_state = Some ExampleData.imu_topics /\
  (let* s1 := updateTopicStatus Example.imu_state "/imu" false in
   updateTopicStatus s1 "/gps" true)
  = (let* s1 := updateTopicStatus Example.imu_state "/gps" true in
     updateTopicStatus s1 "/imu" false).
Proof.
  split; [reflexivity|].
  destruct (updateTopicStatus_commutes Example.imu_state
              ExampleData.imu_topics "/imu" "/gps" false true eq_refl)
    as [Hcomm _].
  apply Hcomm. discriminate.
Defined.

Lemma settings_tree_lists_orientation_topics_witness :
  topics (state ExampleData.catalog_panel) = Some ∅ /\
  displaySettings (state ExampleData.catalog_panel)
    = Some ExampleData.all_displays /\
  exists tree,
    buildSettingsTree (state ExampleData.catalog_panel)
      (orientationTopics ExampleData.catalog_panel) = ret tree /\
    is_Some (find_node tree ["topics"; "/imu"]) /\
    ~ is_Some (find_node tree ["topics"; "__proto__"]).
Proof.
  assert (Hts : topics (state ExampleData.catalog_panel) = Some ∅)
    by (vm_compute; reflexivity).
  assert (Hds : displaySettings (state ExampleData.catalog_panel)
                = Some ExampleData.all_displays) by (vm_compute; reflexivity).
  split; [exact Hts|]. split; [exact Hds|].
  destruct (settings_tree_lists_orientation_topics ExampleData.catalog_panel
              ∅ ExampleData.all_displays Hts Hds) as (tree & Hrun & Hiff).
  exists tree. split; [exact Hrun|]. split.
  - apply Hiff. split; [discriminate|]. exists ExampleData.imu_topic.
    split; [vm_compute; left|]. split; [reflexivity|]. left. reflexivity.
  - intros H. apply Hiff in H as [Hne _]. apply Hne. reflexivity.
Defined.

Lemma display_edit_round_trip_witness :
  topics (state ExampleData.enabled_panel) = Some ExampleData.imu_topics /\
  displaySettings (state ExampleData.enabled_panel)
    = Some ExampleData.all_displays /\
  exists p' tree f,
    returns (dispatch Example.atan2 Example.asin Example.string_to_number
               Example.array_to_number ExampleData.enabled_panel
               (ActionUpdate ["general"; "rollEnabled"] (JBool false))) p' /\
    buildSettingsTree (state p') [ExampleData.imu_topic] = ret tree /\
    find_field tree ["general"] "rollEnabled" = Some f /\
    field_value f = Some false.
Proof.
  assert (Hts : topics (state ExampleData.enabled_panel)
                = Some ExampleData.imu_topics) by (vm_compute; reflexivity).
  assert (Hds : displaySettings (state ExampleData.enabled_panel)
                = Some ExampleData.all_displays) by (vm_compute; reflexivity).
  split; [exact Hts|]. split; [exact Hds|].
  destruct (display_edit_round_trip Example.atan2 Example.asin
              Example.string_to_number Example.array_to_number
              ExampleData.enabled_panel ExampleData.imu_topics
              ExampleData.all_displays RollEnabled false
              [ExampleData.imu_topic] Hts Hds)
    as (p' & tree & f & H1 & H2 & H3 & H4 & _).
  exists p', tree, f. auto.
Defined.

Lemma topic_flag_edit_round_trip_witness :
  topics (state ExampleData.enabled_panel) = Some ExampleData.imu_topics /\
  displaySettings (state ExampleData.enabled_panel)
    = Some ExampleData.all_displays /\
  ExampleData.imu_topics !! "/imu" = Some all_shown /\
  flag_truthy (enabled all_shown) = true /\
  ExampleData.imu_topic ∈ [ExampleData.imu_topic] /\
  name ExampleData.imu_topic <> "__proto__" /\
  exists p' tree f,
    returns (dispatch Example.atan2 Example.asin Example.string_to_number
               Example.array_to_number ExampleData.enabled_panel
               (ActionUpdate ["topics"; "/imu"; "topicSettings"; "showYaw"]
                             (JBool false))) p' /\
    buildSettingsTree (state p') [ExampleData.imu_topic] = ret tree /\
    find_field tree ["topics"; "/imu"; "topicSettings"] "showYaw" = Some f /\
    field_value f = Some false.
Proof.
  assert (Hts : topics (state ExampleData.enabled_panel)
                = Some ExampleData.imu_topics) by (vm_compute; reflexivity).
  assert (Hds : displaySettings (state ExampleData.enabled_panel)
                = Some ExampleData.all_displays) by (vm_compute; reflexivity).
  assert (Hl : ExampleData.imu_topics !! "/imu" = Some all_shown)
    by (vm_compute; reflexivity).
  assert (Hin : ExampleData.imu_topic ∈ [ExampleData.imu_topic]) by left.
  assert (Hname : name ExampleData.imu_topic <> "__proto__")
    by (cbn; discriminate).
  split; [exact Hts|]. split; [exact Hds|]. split; [exact Hl|].
  split; [reflexivity|]. split; [exact Hin|]. split; [exact Hname|].
  destruct (topic_flag_edit_round_trip Example.atan2 Example.asin
              Example.string_to_number Example.array_to_number
              ExampleData.enabled_panel ExampleData.imu_topics
              ExampleData.all_displays ExampleData.imu_topic all_shown
              ShowYaw false [ExampleData.imu_topic] Hts Hds Hl eq_refl Hin
              Hname)
    as (p' & tree & f & n & H1 & H2 & H3 & H4 & _).
  exists p', tree, f. auto.
Defined.

Lemma visibility_edit_witness :
  ExampleData.imu_topic ∈ [ExampleData.imu_topic] /\
  exists p' tree n,
    returns (dispatch Example.atan2 Example.asin Example.string_to_number
               Example.array_to_number ExampleData.fed_panel
               (ActionUpdate ["topics"; "/imu"; "visible"] (JBool false))) p' /\
    buildSettingsTree (state p') [ExampleData.imu_topic] = ret tree /\
    find_node tree ["topics"; "/imu"] = Some n /\
    node_visible n = Some false /\
    OMap.get "/imu" (orientations p') = None.
Proof.
  assert (Hin : ExampleData.imu_topic ∈ [ExampleData.imu_topic]) by left.
  split; [exact Hin|].
  destruct (visibility_edit Example.atan2 Example.asin
              Example.string_to_number Example.array_to_number
              ExampleData.fed_panel ExampleData.imu_topic
              ["topics"; "/imu"; "visible"] false [ExampleData.imu_topic]
              (example_after_reachable Example.enable_and_feed) Hin
              (or_intror (or_introl eq_refl)))
    as (p' & tree & H1 & H2 & H3 & H4).
  destruct H3 as (n & Hn & Hv); [cbn; discriminate|].
  exists p', tree, n. destruct (H4 eq_refl) as [_ Ho]. auto.
Defined.

Lemma displays_gated_and_bounded_witness :
  topics (state (panel_showing ten_sources)) =
    Some (list_to_map (map (fun n => (n, all_shown)) ten_sources)) /\
  displaySettings (state (panel_showing ten_sources))
    = Some ExampleData.all_displays /\
  exists d,
    updateDisplays (panel_showing ten_sources) = ret d /\
    length (rollDisplay d) <= MAX_TOPICS.
Proof.
  split; [reflexivity|]. split; [reflexivity|].
  destruct (displays_gated_and_bounded (panel_showing ten_sources) _
              ExampleData.all_displays eq_refl eq_refl) as (d & Hrun & Hd).
  exists d. split; [exact Hrun|]. exact (proj1 (Hd Roll)).
Defined.

Lemma indicator_iff_shown_witness :
  topics (state ExampleData.fed_panel) = Some ExampleData.imu_topics /\
  displaySettings (state ExampleData.fed_panel)
    = Some ExampleData.all_displays /\
  exists d,
    updateDisplays ExampleData.fed_panel = ret d /\
    indicator_at "yaw-indicator " 0 Num.zero ∈ yawDisplay d.
Proof.
  assert (Hts : topics (state ExampleData.fed_panel)
                = Some ExampleData.imu_topics) by (vm_compute; reflexivity).
  assert (Hds : displaySettings (state ExampleData.fed_panel)
                = Some ExampleData.all_displays) by (vm_compute; reflexivity).
  split; [exact Hts|]. split; [exact Hds|].
  destruct (indicator_iff_shown ExampleData.fed_panel ExampleData.imu_topics
              ExampleData.all_displays Hts Hds) as (d & Hrun & Hiff).
  exists d. split; [exact Hrun|].
  apply (Hiff Yaw). exists 0, "/imu", zero_orientation, all_shown.
  split; [vm_compute; reflexivity|]. split; [reflexivity|].
  split; [vm_compute; reflexivity|]. split; reflexivity.
Defined.

Lemma topicValues_items_witness :
  topics (state (panel_showing ten_sources)) =
    Some (list_to_map (map (fun n => (n, all_shown)) ten_sources)) /\
  displaySettings (state (panel_showing ten_sources))
    = Some ExampleData.all_displays /\
  exists items,
    topicValues (panel_showing ten_sources) = ret items /\
    map item_topicName items = ten_sources.
Proof.
  split; [reflexivity|]. split; [reflexivity|].
  destruct (topicValues_items (panel_showing ten_sources) _
              ExampleData.all_displays eq_refl eq_refl)
    as (items & Hrun & Hnames & _).
  exists items. split; [exact Hrun|]. rewrite Hnames. reflexivity.
Defined.

Lemma values_match_indicators_witness :
  topics (state ExampleData.fed_panel) = Some ExampleData.imu_topics /\
  updateDisplays ExampleData.fed_panel
    = ret (ExampleData.displays_of ExampleData.fed_panel) /\
  ("/imu", 0) ∈ indexed (ExampleData.displays_of ExampleData.fed_panel) /\
  exists items item,
    topicValues ExampleData.fed_panel = ret items /\
    items !! 0 = Some item /\
    item_topicName item = "/imu" /\
    item_className item = "topic-value-item message-1".
Proof.
  assert (Hts : topics (state ExampleData.fed_panel)
                = Some ExampleData.imu_topics) by (vm_compute; reflexivity).
  assert (Hd : updateDisplays ExampleData.fed_panel
               = ret (ExampleData.displays_of ExampleData.fed_panel))
    by (vm_compute; reflexivity).
  assert (Hin : ("/imu", 0)
                ∈ indexed (ExampleData.displays_of ExampleData.fed_panel))
    by (vm_compute; left).
  split; [exact Hts|]. split; [exact Hd|]. split; [exact Hin|].
  destruct (values_match_indicators Example.atan2 Example.asin
              Example.string_to_number Example.array_to_number
              ExampleData.fed_panel ExampleData.imu_topics _ "/imu" 0
              (example_after_reachable Example.enable_and_feed) Hts Hd Hin)
    as (items & item & o & H1 & H2 & H3 & H4 & _).
  exists items, item. auto.
Defined.

Lemma deliver_discards_disabled_witness :
  topics (state ExampleData.fed_panel) = Some ExampleData.imu_topics /\
  (forall m, m ∈ [mkMessageEvent "/gps" identity_quaternion] ->
             enabled_in ExampleData.imu_topics (topic m) = false) /\
  returns (Example.run ExampleData.fed_panel
             (Deliver (Some [mkMessageEvent "/gps" identity_quaternion]) None))
    {| state := state ExampleData.fed_panel;
       messages := messages ExampleData.fed_panel;
       orientations := orientations ExampleData.fed_panel;
       catalog := None;
       subscribed := subscribed ExampleData.fed_panel |}.
Proof.
  assert (Hts : topics (state ExampleData.fed_panel)
                = Some ExampleData.imu_topics) by (vm_compute; reflexivity).
  assert (Hoff : forall m,
             m ∈ [mkMessageEvent "/gps" identity_quaternion] ->
             enabled_in ExampleData.imu_topics (topic m) = false).
  { intros m Hm. apply list_elem_of_singleton in Hm. subst m.
    vm_compute. reflexivity. }
  split; [exact Hts|]. split; [exact Hoff|].
  apply (deliver_discards_disabled Example.atan2 Example.asin
           Example.string_to_number Example.array_to_number
           ExampleData.fed_panel ExampleData.imu_topics
           [mkMessageEvent "/gps" identity_quaternion] None
           (example_after_reachable Example.enable_and_feed) Hts Hoff).
Defined.

Lemma restore_saved_state_witness :
  topics Example.imu_state = Some ExampleData.imu_topics /\
  displaySettings Example.imu_state = Some ExampleData.all_displays /\
  initialPanelState (Some Example.imu_state) = Example.imu_state.
Proof.
  split; [reflexivity|]. split; [reflexivity|].
  apply (restore_saved_state Example.imu_state ExampleData.imu_topics
           ExampleData.all_displays eq_refl eq_refl).
Defined.
